(** * FlightTracker: the scheduled polling and change-detection core

    A shallow embedding of [flight_monitor.py] (class [FlightMonitor]) and
    [flight_monitor_advanced.py] (class [FlightMonitorAdvanced]).

    Conventions of the embedding.
    - A Python value that is either a string or [None] is an [option string].
    - The snapshot dictionary built by [_extract_flight_data] has a fixed set
      of keys, so it is a record; [get] is the dictionary's [.get(key)].
    - Wall-clock time is an integer number of microseconds of local civil
      time (the resolution of [datetime]); [BRASILIA_TZ] is a fixed offset,
      so a civil day always lasts 86400 seconds.
    - Console output ([print]) is not modelled. *)

From Stdlib Require Import ZArith List String Ascii Bool Lia.
Import ListNotations.
Open Scope string_scope.
Open Scope Z_scope.

(** ** Python values *)

Definition value := option string.

Definition value_eqb (a b : value) : bool :=
  match a, b with
  | None, None => true
  | Some x, Some y => String.eqb x y
  | _, _ => false
  end.

(** Truth value of a string-or-None: [None] and the empty string are false. *)
Definition truthy (v : value) : bool :=
  match v with
  | Some s => negb (String.eqb s EmptyString)
  | None => false
  end.

(** [v or d] *)
Definition or_default (v : value) (d : string) : string :=
  match v with
  | Some s => if String.eqb s EmptyString then d else s
  | None => d
  end.

(** ** Snapshots *)

Record Snapshot := mkSnapshot {
  timestamp : string;
  takeoff : value;
  takeoff_scheduled : value;
  landing : value;
  landing_scheduled : value;
  landing_type : value;
  status : value;
  origin : value;
  destination : value;
  aircraft : value;
  flight_id : value;
  error : value;        (* key present only after a request exception *)
  parse_error : value   (* key present only after a decoding exception *)
}.

(** [data.get(key)]: the value stored under [key], [None] for a missing key. *)
Definition get (d : Snapshot) (key : string) : value :=
  if String.eqb key "timestamp" then Some (timestamp d)
  else if String.eqb key "takeoff" then takeoff d
  else if String.eqb key "takeoff_scheduled" then takeoff_scheduled d
  else if String.eqb key "landing" then landing d
  else if String.eqb key "landing_scheduled" then landing_scheduled d
  else if String.eqb key "landing_type" then landing_type d
  else if String.eqb key "status" then status d
  else if String.eqb key "origin" then origin d
  else if String.eqb key "destination" then destination d
  else if String.eqb key "aircraft" then aircraft d
  else if String.eqb key "flight_id" then flight_id d
  else if String.eqb key "error" then error d
  else if String.eqb key "parse_error" then parse_error d
  else None.

(** ** Changes *)

Module Change.
Record t := mk {
  field : string;
  field_name : string;
  old : string;
  new : string;
  timestamp : option string   (* key absent in the basic monitor *)
}.

(** What both monitors report about a change. *)
Definition triple (c : t) : string * string * string :=
  (field c, old c, new c).
End Change.

(** The loop body shared by the two [_compare_data] methods: one field of
    [fields_to_compare] is looked up in both dictionaries and a change is
    appended when the values differ and the new one is not [None]. *)
Definition compare_field (stamp : option string) (old_data new_data : Snapshot)
    (changes : list Change.t) (entry : string * string) : list Change.t :=
  let '(field, field_name) := entry in
  let old_val := get old_data field in
  let new_val := get new_data field in
  match new_val with
  | Some v =>
      if negb (value_eqb old_val new_val)
      then changes ++ [Change.mk field field_name (or_default old_val "N/A") v stamp]
      else changes
  | None => changes
  end.

Module FlightMonitor.

Definition fields_to_compare : list (string * string) :=
  [ ("takeoff", "🛫 Takeoff");
    ("takeoff_scheduled", "📅 Takeoff Programado");
    ("landing", "🛬 Landing");
    ("landing_scheduled", "📅 Landing Programado");
    ("status", "📊 Status");
    ("origin", "🏁 Origem");
    ("destination", "🎯 Destino") ].

(** [FlightMonitor._compare_data]: no change on a first observation,
    otherwise one pass over [fields_to_compare]. *)
Definition _compare_data (old_data : option Snapshot) (new_data : Snapshot)
    : list Change.t :=
  match old_data with
  | None => []
  | Some old_data =>
      fold_left (compare_field None old_data new_data) fields_to_compare []
  end.

End FlightMonitor.

(** ** Civil time *)

Definition second : Z := 1000000.
Definition minute : Z := 60 * second.
Definition hour : Z := 3600 * second.
Definition day : Z := 86400 * second.

Definition digit (n : Z) : ascii := ascii_of_nat (48 + Z.to_nat (n mod 10)).

(** [%02d] for a number below one hundred. *)
Definition two_digits (n : Z) : string :=
  String (digit (n / 10)) (String (digit n) EmptyString).

(** [t.strftime("%H:%M:%S")] *)
Definition strftime_HMS (t : Z) : string :=
  two_digits ((t / hour) mod 24) ++ ":" ++
  two_digits ((t / minute) mod 60) ++ ":" ++
  two_digits ((t / second) mod 60).

(** ** Exceptions *)

Inductive exn :=
| KeyboardInterrupt
| ValueError
| OtherException (name : string).

(** ** Reading [HH:MM]

    [int(s)] for a string of ASCII characters: blanks are stripped at both
    ends, one sign may come first, and the digits may be separated by single
    underscores. *)

Definition is_space (c : ascii) : bool :=
  let n := nat_of_ascii c in
  ((9 <=? n) && (n <=? 13) || (28 <=? n) && (n <=? 32))%nat.

Definition is_digit (c : ascii) : bool :=
  let n := nat_of_ascii c in ((48 <=? n) && (n <=? 57))%nat.

Fixpoint lstrip (l : list ascii) : list ascii :=
  match l with
  | c :: r => if is_space c then lstrip r else l
  | [] => []
  end.

Definition strip (l : list ascii) : list ascii :=
  rev (lstrip (rev (lstrip l))).

Fixpoint digits_value (acc : Z) (after_digit : bool) (l : list ascii) : option Z :=
  match l with
  | [] => if after_digit then Some acc else None
  | c :: r =>
      if is_digit c
      then digits_value (acc * 10 + Z.of_nat (nat_of_ascii c - 48)) true r
      else if Ascii.eqb c "_"
           then (if after_digit then digits_value acc false r else None)
           else None
  end.

Definition int (s : string) : option Z :=
  match strip (list_ascii_of_string s) with
  | c :: r =>
      if Ascii.eqb c "-" then option_map Z.opp (digits_value 0 false r)
      else if Ascii.eqb c "+" then digits_value 0 false r
      else digits_value 0 false (c :: r)
  | [] => None
  end.

(** [s.split(':')] *)
Fixpoint split_colon (cur : string) (s : string) : list string :=
  match s with
  | EmptyString => [cur]
  | String c r =>
      if Ascii.eqb c ":" then cur :: split_colon EmptyString r
      else split_colon (cur ++ String c EmptyString) r
  end.

(** [hour, minute = map(int, time_str.split(':'))]: a [ValueError] unless
    there are exactly two parts and both are integers. *)
Definition parse_hour_minute (time_str : string) : exn + (Z * Z) :=
  match split_colon EmptyString time_str with
  | [a; b] =>
      match int a, int b with
      | Some h, Some m => inr (h, m)
      | _, _ => inl ValueError
      end
  | _ => inl ValueError
  end.

(** [now.replace(hour=h, minute=m, second=0, microsecond=0)]: same civil day,
    given time of day; a [ValueError] when a component is out of range. *)
Definition replace (now h m : Z) : exn + Z :=
  if (0 <=? h) && (h <=? 23) && (0 <=? m) && (m <=? 59)
  then inr (now - now mod day + h * hour + m * minute)
  else inl ValueError.

(** [s.upper()] on ASCII letters. *)
Definition upper_char (c : ascii) : ascii :=
  let n := nat_of_ascii c in
  if ((97 <=? n) && (n <=? 122))%nat then ascii_of_nat (n - 32) else c.

Fixpoint upper (s : string) : string :=
  match s with
  | EmptyString => EmptyString
  | String c r => String (upper_char c) (upper r)
  end.

(** ** The outside world

    What a run of the advanced monitor observes: the clock, the remote page,
    calls of [stop()] made by another thread and the interrupt signal
    (Ctrl+C).  The regular expression, the JSON decoder and the time-zone
    conversion of [_extract_flight_data] are not embedded: a response of the
    remote site is classified by what the method's [try]/[except] structure
    makes of it.

    Time passes only in the two blocking calls, [time.sleep] and the request
    to the remote site: a sleep lasts what it is asked to last and a request
    what the script of the source says.  A call of [stop()] takes effect at
    its instant; it does not wake a sleeping run.  The interrupt signal ends
    the blocking call under way with [KeyboardInterrupt]. *)

Record Payload := mkPayload {
  p_takeoff : value;
  p_takeoff_scheduled : value;
  p_landing : value;
  p_landing_scheduled : value;
  p_landing_type : value;
  p_status : value;
  p_origin : value;
  p_destination : value;
  p_aircraft : value;
  p_flight_id : value
}.

Definition empty_payload : Payload :=
  mkPayload None None None None None None None None None None.

Inductive Response :=
| RequestException (msg : string)
    (* [requests.get] or [raise_for_status] raised a request exception *)
| Page (p : Payload) (perr : value)
    (* a page was read: the values stored in [data], and the message of a
       [JSONDecodeError], [KeyError] or [TypeError] if decoding raised one *)
| Crash (name : string).
    (* an exception of any other class was raised while reading the page *)

Record World := mkWorld {
  clock : Z;                       (* now, in microseconds *)
  source : nat -> Response * Z;    (* n-th request: answer and time taken *)
  fetched : nat;                   (* requests made so far *)
  cond_calls : nat;                (* calls of the stop condition so far *)
  stop_calls : list Z;             (* instants at which [stop()] is called *)
  sigint : option Z                (* instant of the interrupt signal *)
}.

(** The object [self]: the attributes set by [__init__]. *)
Record Monitor := mkMonitor {
  callsign : string;
  url : string;
  scheduled_time : string;
  minutes_before : Z;
  check_interval : Z;
  stop_on_change : bool;
  stop_condition : option (World -> exn + bool);
  max_duration_seconds : Z;
  last_data : option Snapshot;
  changes_log : list Change.t;
  is_running : bool
}.

(** The local variables of [start]. *)
Record Locals := mkLocals {
  start_time : Z;
  check_count : nat;
  stop_reason : string
}.

Record State := mkState {
  self : Monitor;
  world : World;
  locals : Locals
}.

(** The dictionary returned by [start]. *)
Module Result.
Record t := mk {
  status : string;
  data : option Snapshot;
  changes : list Change.t;
  duration_seconds : option Z;   (* in microseconds; absent on an early return *)
  total_checks : option nat      (* absent on an early return *)
}.
End Result.

(** ** A monad for state and exceptions

    A computation ends with a value, with a Python exception, or it runs out
    of the fuel given to its loops. *)

Inductive outcome (A : Type) :=
| Ret (a : A)
| Raise (e : exn)
| OutOfFuel.
Arguments Ret {A} a.
Arguments Raise {A} e.
Arguments OutOfFuel {A}.

Definition M (A : Type) : Type := State -> outcome A * State.

Definition ret {A} (a : A) : M A := fun s => (Ret a, s).
Definition raise {A} (e : exn) : M A := fun s => (Raise e, s).
Definition out_of_fuel {A} : M A := fun s => (OutOfFuel, s).

Definition bind {A B} (c : M A) (k : A -> M B) : M B :=
  fun s =>
    match c s with
    | (Ret a, s') => k a s'
    | (Raise e, s') => (Raise e, s')
    | (OutOfFuel, s') => (OutOfFuel, s')
    end.

Notation "x <- c ;; k" := (bind c (fun x => k))
  (at level 61, c at next level, right associativity).
Notation "c ;;; k" := (bind c (fun _ => k))
  (at level 61, right associativity).

(** [try: c  except KeyboardInterrupt: h] *)
Definition try_except_KeyboardInterrupt {A} (c h : M A) : M A :=
  fun s =>
    match c s with
    | (Raise KeyboardInterrupt, s') => h s'
    | r => r
    end.

Definition lift {A} (r : exn + A) : M A :=
  match r with
  | inl e => raise e
  | inr a => ret a
  end.

Definition gets {A} (f : State -> A) : M A := fun s => (Ret (f s), s).
Definition modify (f : State -> State) : M unit := fun s => (Ret tt, f s).

(** A [while] loop whose body may [break] or [continue]. *)
Inductive control := Continue | Break.

Fixpoint while_loop (fuel : nat) (cond : M bool) (body : M control) : M unit :=
  match fuel with
  | O => out_of_fuel
  | S fuel' =>
      b <- cond ;;
      if b then
        c <- body ;;
        match c with
        | Continue => while_loop fuel' cond body
        | Break => ret tt
        end
      else ret tt
  end.

(** ** Attribute and variable updates *)

Definition set_last_data (m : Monitor) (d : option Snapshot) : Monitor :=
  mkMonitor (callsign m) (url m) (scheduled_time m) (minutes_before m)
    (check_interval m) (stop_on_change m) (stop_condition m)
    (max_duration_seconds m) d (changes_log m) (is_running m).

Definition set_changes_log (m : Monitor) (l : list Change.t) : Monitor :=
  mkMonitor (callsign m) (url m) (scheduled_time m) (minutes_before m)
    (check_interval m) (stop_on_change m) (stop_condition m)
    (max_duration_seconds m) (last_data m) l (is_running m).

Definition set_is_running (m : Monitor) (b : bool) : Monitor :=
  mkMonitor (callsign m) (url m) (scheduled_time m) (minutes_before m)
    (check_interval m) (stop_on_change m) (stop_condition m)
    (max_duration_seconds m) (last_data m) (changes_log m) b.

Definition set_clock (w : World) (t : Z) : World :=
  mkWorld t (source w) (fetched w) (cond_calls w) (stop_calls w) (sigint w).

Definition count_fetch (w : World) : World :=
  mkWorld (clock w) (source w) (S (fetched w)) (cond_calls w) (stop_calls w)
    (sigint w).

Definition count_cond_call (w : World) : World :=
  mkWorld (clock w) (source w) (fetched w) (S (cond_calls w)) (stop_calls w)
    (sigint w).

Definition clear_sigint (w : World) : World :=
  mkWorld (clock w) (source w) (fetched w) (cond_calls w) (stop_calls w) None.

Definition on_self (f : Monitor -> Monitor) : M unit :=
  modify (fun s => mkState (f (self s)) (world s) (locals s)).

Definition on_world (f : World -> World) : M unit :=
  modify (fun s => mkState (self s) (f (world s)) (locals s)).

Definition on_locals (f : Locals -> Locals) : M unit :=
  modify (fun s => mkState (self s) (world s) (f (locals s))).

Definition set_start_time (t : Z) : M unit :=
  on_locals (fun l => mkLocals t (check_count l) (stop_reason l)).

Definition set_check_count (n : nat) : M unit :=
  on_locals (fun l => mkLocals (start_time l) n (stop_reason l)).

Definition incr_check_count : M unit :=
  on_locals (fun l => mkLocals (start_time l) (S (check_count l)) (stop_reason l)).

Definition set_stop_reason (r : string) : M unit :=
  on_locals (fun l => mkLocals (start_time l) (check_count l) r).

Module FlightMonitorAdvanced.

Definition fields_to_compare : list (string * string) :=
  [ ("takeoff", "🛫 Takeoff");
    ("takeoff_scheduled", "📅 Takeoff Programado");
    ("landing", "🛬 Landing");
    ("landing_scheduled", "📅 Landing Programado");
    ("status", "📊 Status") ].

(** [FlightMonitorAdvanced._compare_data]; [stamp] is the reading of the
    clock that is stored with each change. *)
Definition _compare_data (stamp : string) (old_data : option Snapshot)
    (new_data : Snapshot) : list Change.t :=
  match old_data with
  | None => []
  | Some old_data =>
      fold_left (compare_field (Some stamp) old_data new_data)
        fields_to_compare []
  end.

(** [__init__].  The last argument is the value of
    [int(max_duration_hours * 3600)], a floating-point product that is
    taken as computed.  Nothing is checked and nothing can be raised. *)
Definition __init__ (callsign scheduled_time : string)
    (minutes_before check_interval_seconds : Z) (stop_on_change : bool)
    (stop_condition : option (World -> exn + bool))
    (max_duration_seconds : Z) : exn + Monitor :=
  let callsign := upper callsign in
  inr (mkMonitor callsign
         ("https://www.flightaware.com/live/flight/" ++ callsign)
         scheduled_time minutes_before check_interval_seconds stop_on_change
         stop_condition max_duration_seconds None [] false).

(** [stop()] *)
Definition stop (m : Monitor) : Monitor := set_is_running m false.

(** *** Primitive operations *)

(** Is [stop()] called at an instant of the interval (a, b]? *)
Definition stop_between (a b : Z) (calls : list Z) : bool :=
  existsb (fun c => (a <? c) && (c <=? b)) calls.

(** The clock moves on to [t]; calls of [stop()] made meanwhile by the
    other thread take effect. *)
Definition pass (t : Z) (s : State) : State :=
  let w := world s in
  mkState
    (if stop_between (clock w) t (stop_calls w) then stop (self s) else self s)
    (set_clock w t) (locals s).

(** The interrupt signal is delivered at the instant [i]. *)
Definition interrupt_at (i : Z) (s : State) : State :=
  let s' := pass i s in
  mkState (self s') (clear_sigint (world s')) (locals s').

(** Does the interrupt signal come at an instant of the interval (a, b]? *)
Definition sigint_between (a b : Z) (w : World) : option Z :=
  match sigint w with
  | Some i => if (a <? i) && (i <=? b) then Some i else None
  | None => None
  end.

(** A blocking call that lasts [d]: the interrupt signal, if it comes
    during the call, ends it at once with [KeyboardInterrupt]. *)
Definition advance (d : Z) : M unit :=
  fun s =>
    let t := clock (world s) in
    let t' := t + Z.max 0 d in
    match sigint_between t t' (world s) with
    | Some i => (Raise KeyboardInterrupt, interrupt_at i s)
    | None => (Ret tt, pass t' s)
    end.

(** [datetime.now(BRASILIA_TZ)] and [time.time()] read the same clock. *)
Definition datetime_now : M Z := gets (fun s => clock (world s)).

(** [time.sleep(d)] *)
Definition sleep (d : Z) : M unit :=
  if d <? 0 then raise ValueError else advance d.

(** One request to the remote site. *)
Definition request : M Response :=
  ans <- gets (fun s => source (world s) (fetched (world s))) ;;
  on_world count_fetch ;;;
  advance (snd ans) ;;;
  ret (fst ans).

(** *** Methods *)

(** [_parse_time] *)
Definition _parse_time (time_str : string) : M Z :=
  hm <- lift (parse_hour_minute time_str) ;;
  now <- datetime_now ;;
  scheduled <- lift (replace now (fst hm) (snd hm)) ;;
  before <- gets (fun s => minutes_before (self s)) ;;
  let start_time := scheduled - before * minute in
  if (start_time <? now) && (60 * second <? now - start_time)
  then ret (scheduled + day)
  else ret scheduled.

(** The countdown of [_wait_until_start]: one-second sleeps until the
    clock reaches [start_time]. *)
Definition countdown (fuel : nat) (start_time : Z) : M unit :=
  while_loop fuel
    (now <- datetime_now ;; ret (now <? start_time))
    (sleep second ;;; ret Continue).

(** [_wait_until_start] *)
Definition _wait_until_start (fuel : nat) : M bool :=
  now <- datetime_now ;;
  time_str <- gets (fun s => scheduled_time (self s)) ;;
  hm <- lift (parse_hour_minute time_str) ;;
  scheduled_today <- lift (replace now (fst hm) (snd hm)) ;;
  before <- gets (fun s => minutes_before (self s)) ;;
  let start_time := scheduled_today - before * minute in
  if start_time <=? now then ret true
  else
    try_except_KeyboardInterrupt
      (countdown fuel start_time ;;; ret true)
      (ret false).

(** The dictionary [data] after a request exception: every field is
    [None] and the message is stored under the key [error]. *)
Definition failed_snapshot (stamp msg : string) : Snapshot :=
  mkSnapshot stamp None None None None None None None None None None
    (Some msg) None.

(** The dictionary [data] after a page was read: the values found, and the
    message of a decoding exception under the key [parse_error]. *)
Definition page_snapshot (stamp : string) (p : Payload) (perr : value)
    : Snapshot :=
  mkSnapshot stamp (p_takeoff p) (p_takeoff_scheduled p) (p_landing p)
    (p_landing_scheduled p) (p_landing_type p) (p_status p) (p_origin p)
    (p_destination p) (p_aircraft p) (p_flight_id p) None perr.

(** [_extract_flight_data] *)
Definition _extract_flight_data : M Snapshot :=
  now <- datetime_now ;;
  let stamp := strftime_HMS now in
  response <- request ;;
  match response with
  | RequestException msg => ret (failed_snapshot stamp msg)
  | Page p perr => ret (page_snapshot stamp p perr)
  | Crash name => raise (OtherException name)
  end.

(** The condition of the [while] loop of [start]. *)
Definition still_running : M bool :=
  running <- gets (fun s => is_running (self s)) ;;
  now <- datetime_now ;;
  t0 <- gets (fun s => start_time (locals s)) ;;
  limit <- gets (fun s => max_duration_seconds (self s)) ;;
  ret (running && (now - t0 <? limit * second)).

(** The body of the [while] loop of [start]. *)
Definition tick : M control :=
  cond <- gets (fun s => stop_condition (self s)) ;;
  met <- match cond with
         | Some f =>
             w <- gets world ;;
             on_world count_cond_call ;;;
             lift (f w)
         | None => ret false
         end ;;
  if met then set_stop_reason "condition_met" ;;; ret Break
  else
    now <- datetime_now ;;
    t0 <- gets (fun s => start_time (locals s)) ;;
    limit <- gets (fun s => max_duration_seconds (self s)) ;;
    let remaining := limit * second - (now - t0) in
    if remaining <=? 0 then ret Break
    else
      interval <- gets (fun s => check_interval (self s)) ;;
      sleep (Z.min (interval * second) remaining) ;;;
      running <- gets (fun s => is_running (self s)) ;;
      if negb running then set_stop_reason "stopped" ;;; ret Break
      else
        incr_check_count ;;;
        current_data <- _extract_flight_data ;;
        if truthy (get current_data "error") then ret Continue
        else
          last <- gets (fun s => last_data (self s)) ;;
          now <- datetime_now ;;
          let changes := _compare_data (strftime_HMS now) last current_data in
          match changes with
          | _ :: _ =>
              on_self (fun m => set_changes_log m (changes_log m ++ changes)) ;;;
              stop_now <- gets (fun s => stop_on_change (self s)) ;;
              if stop_now
              then
                set_stop_reason "change_detected" ;;;
                on_self (fun m => set_last_data m (Some current_data)) ;;;
                ret Break
              else
                on_self (fun m => set_last_data m (Some current_data)) ;;;
                ret Continue
          | [] =>
              on_self (fun m => set_last_data m (Some current_data)) ;;;
              ret Continue
          end.

(** The guarded loop of [start]:
    [try: while ...  except KeyboardInterrupt: ...]. *)
Definition polling (fuel : nat) : M unit :=
  try_except_KeyboardInterrupt
    (while_loop fuel still_running tick)
    (set_stop_reason "user_interrupt").

(** What follows the loop: the summary and the returned dictionary. *)
Definition summary : M Result.t :=
  on_self (fun m => set_is_running m false) ;;;
  now <- datetime_now ;;
  m <- gets self ;;
  l <- gets locals ;;
  ret (Result.mk (stop_reason l) (last_data m) (changes_log m)
         (Some (now - start_time l)) (Some (check_count l))).

(** [start] *)
Definition start (fuel : nat) : M Result.t :=
  ok <- _wait_until_start fuel ;;
  if negb ok then ret (Result.mk "cancelled" None [] None None)
  else
    on_self (fun m => set_is_running m true) ;;;
    t0 <- datetime_now ;;
    set_start_time t0 ;;;
    set_check_count 0 ;;;
    current_data <- _extract_flight_data ;;
    incr_check_count ;;;
    if truthy (get current_data "error")
    then ret (Result.mk "error" (Some current_data) [] None None)
    else
      on_self (fun m => set_last_data m (Some current_data)) ;;;
      set_stop_reason "timeout" ;;;
      polling fuel ;;;
      summary.

(** A call of [start()] on the object [m] in the world [w]. *)
Definition run (fuel : nat) (m : Monitor) (w : World)
    : outcome Result.t * State :=
  start fuel (mkState m w (mkLocals 0 0 EmptyString)).

End FlightMonitorAdvanced.

(** ** Vocabulary of the properties *)

(** The current value of a field is known and differs from the previous one. *)
Definition changed (old_data new_data : Snapshot) (field : string) : Prop :=
  get new_data field <> None /\ get new_data field <> get old_data field.

Definition changedb (old_data new_data : Snapshot) (field : string) : bool :=
  match get new_data field with
  | Some v => negb (value_eqb (get old_data field) (Some v))
  | None => false
  end.

(** The string held by a value that is not [None]. *)
Definition known (v : value) : string :=
  match v with
  | Some s => s
  | None => EmptyString
  end.

(** The change reported for one entry of [fields_to_compare]. *)
Definition change_of (stamp : option string) (old_data new_data : Snapshot)
    (entry : string * string) : Change.t :=
  Change.mk (fst entry) (snd entry)
    (or_default (get old_data (fst entry)) "N/A")
    (known (get new_data (fst entry)))
    stamp.

(** The fields compared by both monitors. *)
Definition shared_fields : list string :=
  ["takeoff"; "takeoff_scheduled"; "landing"; "landing_scheduled"; "status"].

Definition is_shared (c : Change.t) : bool :=
  existsb (String.eqb (Change.field c)) shared_fields.

(** A change without its time stamp. *)
Definition unstamped (c : Change.t) : Change.t :=
  Change.mk (Change.field c) (Change.field_name c) (Change.old c)
    (Change.new c) None.

(** ** Vocabulary of the stateful properties *)

Import FlightMonitorAdvanced.

(** [wp c Q s]: run from the state [s], the computation [c] ends with an
    outcome and a state that satisfy [Q]. *)
Definition wp {A} (c : M A) (Q : outcome A -> State -> Prop) (s : State) : Prop :=
  match c s with
  | (o, s') => Q o s'
  end.

(** The stop reasons of the specification. *)
Definition spec_stop_reasons : list string :=
  ["condition_met"; "change_detected"; "timeout"; "user_cancelled"; "error";
   "cancelled_before_start"].

(** The values that [start] stores under the key [status]. *)
Definition code_statuses : list string :=
  ["cancelled"; "error"; "timeout"; "condition_met"; "stopped";
   "change_detected"; "user_interrupt"].

(** The values taken by the variable [stop_reason] inside the loop. *)
Definition loop_reasons : list string :=
  ["timeout"; "condition_met"; "stopped"; "change_detected"].

(** The time of day [h:m] on the civil day of [now]. *)
Definition on_day_of (now h m : Z) : Z := now - now mod day + h * hour + m * minute.

(** The first instant, among now, now + 1 s, now + 2 s, ..., that is not
    before [start_at]: where the one-second sleeps of the wait end. *)
Definition wait_end (now start_at : Z) : Z :=
  if start_at <=? now then now
  else now + (start_at - now + second - 1) / second * second.

(** The scheduled time of the monitor is well formed: two integers, an hour
    and a minute of the day. *)
Definition well_formed_time (time_str : string) (h m : Z) : Prop :=
  parse_hour_minute time_str = inr (h, m) /\
  0 <= h <= 23 /\ 0 <= m <= 59.

(** Is the list of changes of a tick not empty ([if changes:])? *)
Definition nonempty {A} (l : list A) : bool :=
  match l with
  | [] => false
  | _ :: _ => true
  end.

(** The states [s] and [s'] differ at most by the clock and by the flag
    [is_running]: what waiting can change. *)
Definition waited (s s' : State) : Prop :=
  locals s' = locals s /\
  set_clock (world s') 0 = set_clock (world s) 0 /\
  set_is_running (self s') true = set_is_running (self s) true.

(** No interrupt signal comes at an instant of the interval (a, b]. *)
Definition quiet (a b : Z) (w : World) : Prop :=
  forall i, sigint w = Some i -> i <= a \/ b < i.

(** The condition of the polling loop holds in the state [s]. *)
Definition loop_entered (s : State) : Prop :=
  is_running (self s) = true /\
  clock (world s) - start_time (locals s) < max_duration_seconds (self s) * second.

(** The time left before the deadline, as the tick computes it. *)
Definition remaining (s : State) : Z :=
  max_duration_seconds (self s) * second -
  (clock (world s) - start_time (locals s)).

(** The length of the sleep of the tick that starts in the state [s]. *)
Definition sleep_of (s : State) : Z :=
  Z.min (check_interval (self s) * second) (remaining s).

(** There is no stop condition, or it answers [False]. *)
Definition condition_unmet (s : State) : Prop :=
  match stop_condition (self s) with
  | Some f => f (world s) = inr false
  | None => True
  end.

(** The instant at which the monitoring of [s] is due to start, for the
    scheduled time [h:m]. *)
Definition start_at (s : State) (h m : Z) : Z :=
  on_day_of (clock (world s)) h m - minutes_before (self s) * minute.

(** The number of seconds, rounded up, left before the deadline. *)
Definition seconds_left (s : State) : nat :=
  Z.to_nat ((remaining s + second - 1) / second).

(** The stop condition, if there is one, answers whenever it is called. *)
Definition never_raises (c : option (World -> exn + bool)) : Prop :=
  forall f w, c = Some f -> exists b, f w = inr b.

(** Reading the answers of the source raises nothing but what
    [_extract_flight_data] catches. *)
Definition never_crashes (src : nat -> Response * Z) : Prop :=
  forall n name, fst (src n) <> Crash name.

(** What the ticks of a run leave as it is: the configuration [m] of the
    monitor, the start [t0] of the run and the source [src]. *)
Definition steady (m : Monitor) (t0 : Z) (src : nat -> Response * Z)
    (s : State) : Prop :=
  check_interval (self s) = check_interval m /\
  max_duration_seconds (self s) = max_duration_seconds m /\
  stop_condition (self s) = stop_condition m /\
  start_time (locals s) = t0 /\
  source (world s) = src.

(** ** Vocabulary of the properties of a whole run *)

(** The list [l'] is [l] with entries appended. *)
Definition extends {A} (l l' : list A) : Prop :=
  exists added, l' = (l ++ added)%list.

(** Since the run began with [f0] requests on the counter of the world, the
    variable [check_count] has counted every request, and there was one. *)
Definition counted (f0 : nat) (s : State) : Prop :=
  (1 <= check_count (locals s))%nat /\
  fetched (world s) = (f0 + check_count (locals s))%nat.

(** A run that began at [t0] with the limit [lim] on a source whose requests
    take [longest] at most is not later than the deadline plus one request. *)
Definition on_time (src : nat -> Response * Z) (lim longest t0 : Z) (s : State)
    : Prop :=
  source (world s) = src /\
  max_duration_seconds (self s) = lim /\
  start_time (locals s) = t0 /\
  t0 <= clock (world s) <= t0 + Z.max 0 (lim * second) + longest.

(** The change [c] reports, as its new value, the value that the snapshot
    [d] holds for the field of [c]. *)
Definition describes (d : Snapshot) (c : Change.t) : Prop :=
  get d (Change.field c) = Some (Change.new c).

(** The monitor stops on change, and its log ends with a group of changes
    that describe the stored snapshot. *)
Definition change_seen (s : State) : Prop :=
  stop_on_change (self s) = true /\
  exists d found,
    last_data (self s) = Some d /\
    found <> [] /\
    Forall (describes d) found /\
    exists before, changes_log (self s) = (before ++ found)%list.

(** The stop condition has just answered [True]: the world is the one it
    was called in, the call counted. *)
Definition condition_answered (cond : option (World -> exn + bool)) (s : State)
    : Prop :=
  exists f w, cond = Some f /\ f w = inr true /\ world s = count_cond_call w.

(** At the head of the loop of a run that nobody stops. *)
Definition unstopped (lim t0 : Z) (s : State) : Prop :=
  stop_reason (locals s) = "timeout" /\
  is_running (self s) = true /\
  stop_calls (world s) = [] /\
  max_duration_seconds (self s) = lim /\
  start_time (locals s) = t0.

(** After the loop of a run that nobody stops: the reason is not stopped,
    and if it is timeout the deadline has been reached. *)
Definition deadline_reached (lim t0 : Z) (s : State) : Prop :=
  stop_reason (locals s) <> "stopped" /\
  max_duration_seconds (self s) = lim /\
  start_time (locals s) = t0 /\
  (stop_reason (locals s) = "timeout" -> lim * second <= clock (world s) - t0).

(** The stop condition, if there is one, never raises [KeyboardInterrupt]
    itself. *)
Definition no_interrupt (cond : option (World -> exn + bool)) : Prop :=
  forall f w, cond = Some f -> f w <> inl KeyboardInterrupt.

(** Inside the loop of a run that receives no interrupt signal. *)
Definition unsignalled_loop (cond : option (World -> exn + bool)) (s : State)
    : Prop :=
  sigint (world s) = None /\
  stop_condition (self s) = cond /\
  In (stop_reason (locals s)) loop_reasons.

(** A snapshot without an error message, and one with an error message
    ([if current_data.get("error")]). *)
Definition readable (v : option Snapshot) : Prop :=
  exists d, v = Some d /\ truthy (get d "error") = false.

Definition unreadable (v : option Snapshot) : Prop :=
  exists d, v = Some d /\ truthy (get d "error") = true.

(** The dictionary of an early [return]: no change, and neither of the keys
    duration_seconds and total_checks. *)
Definition early_result (r : Result.t) : Prop :=
  Result.changes r = [] /\ Result.duration_seconds r = None /\
  Result.total_checks r = None.

(** The dictionary returned after the loop. *)
Definition full_result (r : Result.t) : Prop :=
  In (Result.status r) ("user_interrupt" :: loop_reasons) /\
  readable (Result.data r) /\
  Result.duration_seconds r <> None /\
  Result.total_checks r <> None.

(** The attributes that [__init__] sets from its arguments: the object
    without what a run writes (last_data, changes_log and is_running). *)
Definition configuration (m : Monitor) : Monitor :=
  set_is_running (set_changes_log (set_last_data m None) []) false.

(** What the run cannot influence in the world: the answers of the remote
    site and the calls of [stop()] made by the other thread. *)
Definition surroundings (w : World) : (nat -> Response * Z) * list Z :=
  (source w, stop_calls w).

Definition framed (st s : State) : Prop :=
  configuration (self s) = configuration (self st) /\
  surroundings (world s) = surroundings (world st).

(** ** Example runs

    A monitor for the flight PSCBJ, scheduled at 12:10 and started at noon,
    with the default lead time of 15 minutes and interval of 30 seconds. *)

Definition noon : Z := 12 * hour.

Definition example_monitor (time_str : string) (stop_on_change : bool)
    (max_seconds : Z) : Monitor :=
  mkMonitor "PSCBJ" "https://www.flightaware.com/live/flight/PSCBJ" time_str
    15 30 stop_on_change None max_seconds None [] false.

(** What a page of the flight shows: [landing] is its landing time. *)
Definition flight_payload (landing : value) (flight_status : string) : Payload :=
  mkPayload (Some "10:00") (Some "10:05") landing (Some "14:00")
    (option_map (fun _ => "estimated") landing) (Some flight_status)
    (Some "Sao Paulo") (Some "Rio de Janeiro") (Some "Embraer 190")
    (Some "PSCBJ-1").

Definition flight_page (landing : value) (flight_status : string) : Response :=
  Page (flight_payload landing flight_status) None.

Definition example_world (source : nat -> Response * Z) (stop_calls : list Z)
    (sigint : option Z) : World :=
  mkWorld noon source 0 0 stop_calls sigint.

Definition initial_state (m : Monitor) (w : World) : State :=
  mkState m w (mkLocals 0 0 EmptyString).

(** The landing time appears on the third request. *)
Definition landing_source (n : nat) : Response * Z :=
  match n with
  | 0%nat | 1%nat => (flight_page None "En Route", 2 * second)
  | _ => (flight_page (Some "14:32") "En Route", 2 * second)
  end.

(** The second request meets a page that cannot be decoded. *)
Definition undecodable_source (n : nat) : Response * Z :=
  match n with
  | 1%nat => (Page empty_payload (Some "Expecting value"), 2 * second)
  | _ => (flight_page None "En Route", 2 * second)
  end.

(** The second and third requests fail. *)
Definition failing_source (n : nat) : Response * Z :=
  match n with
  | 0%nat => (flight_page None "En Route", 2 * second)
  | 1%nat => (RequestException "Connection aborted", second)
  | 2%nat => (RequestException "Read timed out", 15 * second)
  | _ => (flight_page (Some "14:32") "Landed", 2 * second)
  end.

(** The remote site cannot be reached. *)
Definition dead_source (n : nat) : Response * Z :=
  (RequestException "Name or service not known", second).

(** The state of a run just after its first reading. *)
Definition after_baseline (m : Monitor) (w : World) : State :=
  snd ((_wait_until_start 1 ;;;
        on_self (fun m => set_is_running m true) ;;;
        t0 <- datetime_now ;;
        set_start_time t0 ;;;
        set_check_count 0 ;;;
        current_data <- _extract_flight_data ;;
        incr_check_count ;;;
        on_self (fun m => set_last_data m (Some current_data)) ;;;
        set_stop_reason "timeout") (initial_state m w)).

(** The run that meets [landing_source], stopped on change, just before its
    third request. *)
Definition before_third_request : State :=
  snd (tick (after_baseline (example_monitor "12:10" true 14400)
               (example_world landing_source [] None))).

(** A run that does not stop on change, just after its first reading, with
    the given source, calls of [stop()] and interrupt signal. *)
Definition watching_while (source : nat -> Response * Z) (stop_calls : list Z)
    (sigint : option Z) : State :=
  after_baseline (example_monitor "12:10" false 14400)
    (example_world source stop_calls sigint).

Definition watching (source : nat -> Response * Z) : State :=
  watching_while source [] None.

(** At noon, a monitor for a flight scheduled at 10:00: its start, 09:45, is
    two hours and a quarter in the past. *)
Definition stale_state : State :=
  initial_state (example_monitor "10:00" true 14400)
    (example_world landing_source [] None).

(** At noon, a monitor for a flight scheduled at 12:16, allowed to run for
    one minute: it waits until 12:01.  [stop()] is called half a minute
    after noon. *)
Definition waiting_state : State :=
  initial_state (example_monitor "12:16" false 60)
    (example_world landing_source [noon + 30 * second] None).

(** The same wait, with the interrupt signal half a second later. *)
Definition interrupted_waiting_state : State :=
  initial_state (example_monitor "12:16" false 60)
    (example_world landing_source [] (Some (noon + 30 * second + 500000))).

(** A stop condition that fails, as a query to a data base that is down. *)
Definition broken_condition : World -> exn + bool :=
  fun _ => inl (OtherException "OperationalError").

Definition monitor_with_condition (cond : World -> exn + bool) : Monitor :=
  mkMonitor "PSCBJ" "https://www.flightaware.com/live/flight/PSCBJ" "12:10"
    15 30 true (Some cond) 14400 None [] false.

(** From the second request on, the decoded payload holds a list where a
    dictionary is expected: [.items()] raises [AttributeError]. *)
Definition crash_source (n : nat) : Response * Z :=
  match n with
  | 0%nat => (flight_page None "En Route", 2 * second)
  | _ => (Crash "AttributeError", second)
  end.

(** The run of the landing scenario: stops on change, four hours allowed. *)
Definition landing_run : State :=
  initial_state (example_monitor "12:10" true 14400)
    (example_world landing_source [] None).

(** A run allowed to last one minute, which does not stop on change. *)
Definition short_run : State :=
  initial_state (example_monitor "12:10" false 60)
    (example_world landing_source [] None).

(** A stop condition that holds from 12:00:30 on, as a table that another
    program fills in at that time. *)
Definition arrival_logged : World -> exn + bool :=
  fun w => inr (noon + 30 * second <=? clock w).

Definition conditional_run : State :=
  initial_state (monitor_with_condition arrival_logged)
    (example_world landing_source [] None).

(** The monitor of the landing run, used for a second run. *)
Definition second_run : State :=
  initial_state (self (snd (start 3 landing_run)))
    (example_world landing_source [] None).

(** A run against a site that cannot be reached. *)
Definition dead_run : State :=
  initial_state (example_monitor "12:10" true 14400)
    (example_world dead_source [] None).

(** * Properties *)

(** ** The change detector *)

Lemma value_eqb_spec (a b : value) : reflect (a = b) (value_eqb a b).
Proof.
  destruct a as [x|], b as [y|]; simpl; try (constructor; congruence).
  destruct (String.eqb_spec x y); constructor; congruence.
Qed.

Lemma changedb_spec (old_data new_data : Snapshot) (field : string) :
  changedb old_data new_data field = true <-> changed old_data new_data field.
Proof.
  unfold changedb, changed.
  destruct (get new_data field) as [v|].
  - destruct (value_eqb_spec (get old_data field) (Some v)) as [E|E]; simpl.
    + split; [discriminate | intros [_ H]; congruence].
    + split; [intros _; split; congruence | reflexivity].
  - split; [discriminate | intros [H _]; congruence].
Qed.

(** The pass over the fields appends, in order, the change of each field
    that has changed. *)
Lemma fold_compare_field stamp old_data new_data entries acc :
  fold_left (compare_field stamp old_data new_data) entries acc =
  (acc ++ map (change_of stamp old_data new_data)
            (filter (fun e => changedb old_data new_data (fst e)) entries))%list.
Proof.
  revert acc.
  induction entries as [|[field label] rest IH]; intros acc; simpl.
  - now rewrite app_nil_r.
  - rewrite IH. unfold compare_field, changedb at 2. simpl.
    destruct (get new_data field) as [v|] eqn:Hnew; [|reflexivity].
    destruct (negb (value_eqb (get old_data field) (Some v))); [|reflexivity].
    simpl. unfold change_of at 2. simpl. rewrite Hnew. simpl.
    now rewrite <- app_assoc.
Qed.

Lemma fields_of_changes stamp old_data new_data entries :
  map Change.field
    (map (change_of stamp old_data new_data)
       (filter (fun e => changedb old_data new_data (fst e)) entries)) =
  filter (changedb old_data new_data) (map fst entries).
Proof.
  induction entries as [|e rest IH]; simpl; [reflexivity|].
  destruct (changedb old_data new_data (fst e)); simpl; now rewrite IH.
Qed.

Lemma change_of_sound stamp old_data new_data entries c :
  In c (map (change_of stamp old_data new_data)
          (filter (fun e => changedb old_data new_data (fst e)) entries)) ->
  changed old_data new_data (Change.field c) /\
  get new_data (Change.field c) = Some (Change.new c) /\
  Change.old c = or_default (get old_data (Change.field c)) "N/A".
Proof.
  rewrite in_map_iff. intros [e [<- He]].
  apply filter_In in He. destruct He as [_ He].
  pose proof (proj1 (changedb_spec _ _ _) He) as Hc. simpl.
  split; [exact Hc|]. split; [|reflexivity].
  destruct Hc as [Hn _]. now destruct (get new_data (fst e)).
Qed.

(** C5.  The detector returns the empty list when there is no previous
    snapshot.  Otherwise the fields of the changes it returns are, in the
    order of the fixed list of fields (five for the advanced monitor, the
    same five followed by origin and destination for the basic one), exactly
    the fields whose current value is not [None] and differs from the
    previous value; each change carries that current value and the previous
    one; and a field whose current value is [None] is never reported. *)
Theorem compare_data_reports_changed_fields :
  forall (stamp : string) (old_data new_data : Snapshot),
    FlightMonitorAdvanced._compare_data stamp None new_data = [] /\
    FlightMonitor._compare_data None new_data = [] /\
    let adv := FlightMonitorAdvanced._compare_data stamp (Some old_data) new_data in
    let bas := FlightMonitor._compare_data (Some old_data) new_data in
    map Change.field adv = filter (changedb old_data new_data) shared_fields /\
    map Change.field bas =
      filter (changedb old_data new_data)
        (shared_fields ++ ["origin"; "destination"])%list /\
    (forall f, changedb old_data new_data f = true <-> changed old_data new_data f) /\
    (forall c, In c adv \/ In c bas ->
       changed old_data new_data (Change.field c) /\
       get new_data (Change.field c) = Some (Change.new c) /\
       Change.old c = or_default (get old_data (Change.field c)) "N/A") /\
    (forall f, get new_data f = None ->
       ~ In f (map Change.field adv) /\ ~ In f (map Change.field bas)).
Proof.
  intros stamp old_data new_data.
  split; [reflexivity|]. split; [reflexivity|].
  unfold FlightMonitorAdvanced._compare_data, FlightMonitor._compare_data.
  cbv zeta. rewrite !fold_compare_field. rewrite !app_nil_l.
  rewrite !fields_of_changes.
  split; [reflexivity|]. split; [reflexivity|].
  split; [intros f; apply changedb_spec|].
  split.
  - intros c [H|H]; eapply change_of_sound; exact H.
  - intros f Hf.
    assert (Hno : changedb old_data new_data f = false)
      by (unfold changedb; now rewrite Hf).
    split; intros Hin; apply filter_In in Hin; destruct Hin as [_ Hin];
      congruence.
Qed.

(** ** The two detectors agree on the shared fields *)

Lemma filter_shared_keep stamp old_data new_data entries :
  forallb (fun e => existsb (String.eqb (fst e)) shared_fields) entries = true ->
  filter is_shared
    (map (change_of stamp old_data new_data)
       (filter (fun e => changedb old_data new_data (fst e)) entries)) =
  map (change_of stamp old_data new_data)
    (filter (fun e => changedb old_data new_data (fst e)) entries).
Proof.
  induction entries as [|e rest IH]; cbn [forallb filter map]; [reflexivity|].
  intros H. apply andb_true_iff in H. destruct H as [He Hrest].
  destruct (changedb old_data new_data (fst e)); cbn [filter map];
    [|now apply IH].
  unfold is_shared at 1. cbn [Change.field change_of]. rewrite He.
  now rewrite IH.
Qed.

Lemma filter_shared_drop stamp old_data new_data entries :
  forallb (fun e => negb (existsb (String.eqb (fst e)) shared_fields)) entries = true ->
  filter is_shared
    (map (change_of stamp old_data new_data)
       (filter (fun e => changedb old_data new_data (fst e)) entries)) = [].
Proof.
  induction entries as [|e rest IH]; cbn [forallb filter map]; [reflexivity|].
  intros H. apply andb_true_iff in H. destruct H as [He Hrest].
  destruct (changedb old_data new_data (fst e)); cbn [filter map];
    [|now apply IH].
  unfold is_shared at 1. cbn [Change.field change_of].
  apply negb_true_iff in He. rewrite He. now apply IH.
Qed.

Lemma unstamped_change_of stamp old_data new_data entries :
  map unstamped (map (change_of (Some stamp) old_data new_data) entries) =
  map (change_of None old_data new_data) entries.
Proof. rewrite map_map. now apply map_ext. Qed.


(** ** Reasoning about computations *)

Lemma wp_intro {A} (c : M A) (Q : outcome A -> State -> Prop) s o s' :
  wp c Q s -> c s = (o, s') -> Q o s'.
Proof. unfold wp. intros H E. now rewrite E in H. Qed.

Lemma wp_elim {A} (c : M A) (Q : outcome A -> State -> Prop) s :
  Q (fst (c s)) (snd (c s)) -> wp c Q s.
Proof. unfold wp. now destruct (c s). Qed.

Lemma wp_mono {A} (c : M A) (Q Q' : outcome A -> State -> Prop) s :
  wp c Q s -> (forall o s', Q o s' -> Q' o s') -> wp c Q' s.
Proof. unfold wp. destruct (c s). auto. Qed.

Lemma wp_ret {A} (a : A) Q s : Q (Ret a) s -> wp (ret a) Q s.
Proof. exact (fun H => H). Qed.

Lemma wp_raise {A} e (Q : outcome A -> State -> Prop) s :
  Q (Raise e) s -> wp (raise e) Q s.
Proof. exact (fun H => H). Qed.

Lemma wp_out_of_fuel {A} (Q : outcome A -> State -> Prop) s :
  Q OutOfFuel s -> wp out_of_fuel Q s.
Proof. exact (fun H => H). Qed.

Lemma wp_bind_ret {A B} (a : A) (k : A -> M B) Q s :
  wp (k a) Q s -> wp (bind (ret a) k) Q s.
Proof. exact (fun H => H). Qed.

Lemma wp_bind_raise {A B} e (k : A -> M B) Q s :
  Q (Raise e) s -> wp (bind (raise e) k) Q s.
Proof. exact (fun H => H). Qed.

Lemma wp_bind_gets {A B} (f : State -> A) (k : A -> M B) Q s :
  wp (k (f s)) Q s -> wp (bind (gets f) k) Q s.
Proof. exact (fun H => H). Qed.

Lemma wp_bind_modify {B} (f : State -> State) (k : unit -> M B) Q s :
  wp (k tt) Q (f s) -> wp (bind (modify f) k) Q s.
Proof. exact (fun H => H). Qed.

Lemma wp_gets {A} (f : State -> A) Q s : Q (Ret (f s)) s -> wp (gets f) Q s.
Proof. exact (fun H => H). Qed.

Lemma wp_modify (f : State -> State) Q s : Q (Ret tt) (f s) -> wp (modify f) Q s.
Proof. exact (fun H => H). Qed.

Lemma wp_bind_assoc {A B C} (c : M A) (k1 : A -> M B) (k2 : B -> M C) Q s :
  wp (bind c (fun a => bind (k1 a) k2)) Q s -> wp (bind (bind c k1) k2) Q s.
Proof. unfold wp, bind. destruct (c s) as [[a|e|] s1]; auto. Qed.

Lemma wp_bind {A B} (c : M A) (k : A -> M B) Q s :
  wp c (fun o s' => match o with
                    | Ret a => wp (k a) Q s'
                    | Raise e => Q (Raise e) s'
                    | OutOfFuel => Q OutOfFuel s'
                    end) s ->
  wp (bind c k) Q s.
Proof. unfold wp, bind. destruct (c s) as [[a|e|] s']; auto. Qed.

Lemma wp_try {A} (c h : M A) Q s :
  wp c (fun o s' => match o with
                    | Raise KeyboardInterrupt => wp h Q s'
                    | _ => Q o s'
                    end) s ->
  wp (try_except_KeyboardInterrupt c h) Q s.
Proof.
  unfold wp, try_except_KeyboardInterrupt.
  destruct (c s) as [[a|[| |n]|] s']; auto.
Qed.

Lemma wp_advance d Q s :
  (sigint_between (clock (world s)) (clock (world s) + Z.max 0 d) (world s) = None ->
   Q (Ret tt) (pass (clock (world s) + Z.max 0 d) s)) ->
  (forall i,
     sigint_between (clock (world s)) (clock (world s) + Z.max 0 d) (world s) = Some i ->
     Q (Raise KeyboardInterrupt) (interrupt_at i s)) ->
  wp (advance d) Q s.
Proof.
  intros H1 H2. unfold wp, advance.
  destruct (sigint_between _ _ _) as [i|]; auto.
Qed.

Lemma wp_while_S fuel (cond : M bool) (body : M control) Q s :
  wp (b <- cond ;;
      if b then
        c <- body ;;
        match c with
        | Continue => while_loop fuel cond body
        | Break => ret tt
        end
      else ret tt) Q s ->
  wp (while_loop (S fuel) cond body) Q s.
Proof. exact (fun H => H). Qed.

(** The state after time has passed: only the clock and the flag
    [is_running] can differ. *)
Lemma self_pass t s :
  self (pass t s) =
  set_is_running (self s)
    (is_running (self s) &&
     negb (stop_between (clock (world s)) t (stop_calls (world s)))).
Proof.
  unfold pass, stop. cbn [self].
  destruct (stop_between _ _ _), (self s) as [? ? ? ? ? ? ? ? ? ? r];
    cbn; try reflexivity; now destruct r.
Qed.

Lemma world_pass t s : world (pass t s) = set_clock (world s) t.
Proof. reflexivity. Qed.

Lemma locals_pass t s : locals (pass t s) = locals s.
Proof. reflexivity. Qed.

Lemma self_interrupt_at t s : self (interrupt_at t s) = self (pass t s).
Proof. reflexivity. Qed.

Lemma world_interrupt_at t s :
  world (interrupt_at t s) = clear_sigint (set_clock (world s) t).
Proof. reflexivity. Qed.

Lemma locals_interrupt_at t s : locals (interrupt_at t s) = locals s.
Proof. reflexivity. Qed.

Lemma sigint_between_Some a b w i :
  sigint_between a b w = Some i -> sigint w = Some i /\ a < i <= b.
Proof.
  unfold sigint_between. destruct (sigint w) as [j|]; [|discriminate].
  destruct ((a <? j) && (j <=? b)) eqn:E; [|discriminate].
  intros [= ->]. apply andb_true_iff in E. destruct E as [E1 E2].
  apply Z.ltb_lt in E1. apply Z.leb_le in E2. auto.
Qed.

Lemma sigint_between_None a b w :
  sigint_between a b w = None ->
  forall i, sigint w = Some i -> i <= a \/ b < i.
Proof.
  unfold sigint_between. intros H i Hi. rewrite Hi in H.
  destruct ((a <? i) && (i <=? b)) eqn:E; [discriminate|].
  apply andb_false_iff in E. destruct E as [E|E].
  - apply Z.ltb_ge in E. auto.
  - apply Z.leb_gt in E. auto.
Qed.

Lemma sigint_between_count_fetch a b w :
  sigint_between a b (count_fetch w) = sigint_between a b w.
Proof. reflexivity. Qed.

Lemma sigint_between_count_cond_call a b w :
  sigint_between a b (count_cond_call w) = sigint_between a b w.
Proof. reflexivity. Qed.

Lemma sigint_between_set_clock a b w t :
  sigint_between a b (set_clock w t) = sigint_between a b w.
Proof. reflexivity. Qed.

Lemma quiet_sigint_between a b w :
  quiet a b w <-> sigint_between a b w = None.
Proof.
  unfold quiet, sigint_between. destruct (sigint w) as [j|].
  - destruct ((a <? j) && (j <=? b)) eqn:E.
    + apply andb_true_iff in E. destruct E as [E1 E2].
      apply Z.ltb_lt in E1. apply Z.leb_le in E2.
      split; [|discriminate]. intros H. destruct (H j eq_refl); lia.
    + split; [reflexivity|]. intros _ i [= <-].
      apply andb_false_iff in E. destruct E as [E|E].
      * apply Z.ltb_ge in E. auto.
      * apply Z.leb_gt in E. auto.
  - split; [reflexivity|discriminate].
Qed.

Lemma wp_bind_eq {A B} (c : M A) (k : A -> M B) Q s a s1 :
  c s = (Ret a, s1) -> wp (k a) Q s1 -> wp (bind c k) Q s.
Proof. unfold wp, bind. now intros ->. Qed.

Lemma wp_fst {A} (c : M A) (x : outcome A) s :
  wp c (fun o _ => o = x) s -> fst (c s) = x.
Proof. unfold wp. now destruct (c s). Qed.

(** Projections of the records reduce, also through the passing of time. *)
Ltac proj_once :=
  rewrite ?self_interrupt_at, ?world_interrupt_at, ?locals_interrupt_at,
          ?self_pass, ?world_pass, ?locals_pass,
          ?sigint_between_count_fetch, ?sigint_between_count_cond_call,
          ?sigint_between_set_clock;
  cbn [self world locals clock source fetched cond_calls stop_calls sigint
       callsign url scheduled_time minutes_before check_interval stop_on_change
       stop_condition max_duration_seconds last_data changes_log is_running
       start_time check_count stop_reason
       set_last_data set_changes_log set_is_running set_clock count_fetch
       count_cond_call clear_sigint fst snd].

Ltac proj := proj_once; repeat progress proj_once.

Ltac proj_once_in H :=
  rewrite ?self_interrupt_at, ?world_interrupt_at, ?locals_interrupt_at,
          ?self_pass, ?world_pass, ?locals_pass,
          ?sigint_between_count_fetch, ?sigint_between_count_cond_call,
          ?sigint_between_set_clock in H;
  cbn [self world locals clock source fetched cond_calls stop_calls sigint
       callsign url scheduled_time minutes_before check_interval stop_on_change
       stop_condition max_duration_seconds last_data changes_log is_running
       start_time check_count stop_reason
       set_last_data set_changes_log set_is_running set_clock count_fetch
       count_cond_call clear_sigint fst snd] in H.

Ltac proj_in H := proj_once_in H; repeat progress proj_once_in H.

Ltac head_of c :=
  lazymatch c with
  | ?f _ => head_of f
  | _ => c
  end.

(** One step of symbolic execution of a goal [wp c Q s]. *)
Ltac mstep :=
  lazymatch goal with
  | |- wp (bind (bind _ _) _) _ _ => apply wp_bind_assoc
  | |- wp (bind (gets _) _) _ _ => apply wp_bind_gets; cbv beta; proj
  | |- wp (bind (modify _) _) _ _ => apply wp_bind_modify; cbv beta; proj
  | |- wp (bind (ret _) _) _ _ => apply wp_bind_ret; cbv beta
  | |- wp (bind (raise _) _) _ _ => apply wp_bind_raise; cbv beta iota; proj
  | |- wp (ret _) _ _ => apply wp_ret; cbv beta iota; proj
  | |- wp (gets _) _ _ => apply wp_gets; cbv beta iota; proj
  | |- wp (modify _) _ _ => apply wp_modify; cbv beta iota; proj
  | |- wp (raise _) _ _ => apply wp_raise; cbv beta iota; proj
  | |- wp out_of_fuel _ _ => apply wp_out_of_fuel; cbv beta iota; proj
  | |- wp (bind (advance _) _) _ _ =>
      apply wp_bind, wp_advance;
      [ let H := fresh "Hquiet" in intros H; proj_in H
      | let i := fresh "i" in let H := fresh "Hsig" in intros i H; proj_in H ];
      cbv beta iota; proj
  | |- wp (advance _) _ _ =>
      apply wp_advance;
      [ let H := fresh "Hquiet" in intros H; proj_in H
      | let i := fresh "i" in let H := fresh "Hsig" in intros i H; proj_in H ];
      cbv beta iota; proj
  | |- wp (bind (lift ?x) _) _ _ => unfold lift at 1; destruct x eqn:?
  | |- wp (lift ?x) _ _ => unfold lift at 1; destruct x eqn:?
  | |- wp (bind (if ?b then _ else _) _) _ _ => destruct b eqn:?
  | |- wp (if ?b then _ else _) _ _ => destruct b eqn:?
  | |- wp (bind (match ?x with _ => _ end) _) _ _ => destruct x eqn:?
  | |- wp (match ?x with _ => _ end) _ _ => destruct x eqn:?
  | |- wp (bind (countdown _ _) _) _ _ => fail
  | |- wp (countdown _ _) _ _ => fail
  | |- wp (bind (polling _) _) _ _ => fail
  | |- wp (polling _) _ _ => fail
  | |- wp (bind (while_loop _ _ _) _) _ _ => fail
  | |- wp (while_loop _ _ _) _ _ => fail
  | |- wp (bind (try_except_KeyboardInterrupt _ _) _) _ _ => fail
  | |- wp (try_except_KeyboardInterrupt _ _) _ _ => fail
  | |- wp (bind ?c _) _ _ => let h := head_of c in unfold h at 1
  | |- wp ?c _ _ => let h := head_of c in unfold h at 1
  end.

(** ** One tick of the polling loop *)

Lemma truthy_error_failed stamp msg :
  msg <> EmptyString -> truthy (get (failed_snapshot stamp msg) "error") = true.
Proof.
  intros H. cbn.
  destruct (String.eqb_spec msg EmptyString); [contradiction|reflexivity].
Qed.

Ltac use_source Hsrc :=
  try rewrite Hsrc in *;
  cbn [fst snd] in *; try discriminate;
  repeat match goal with
    | H : RequestException _ = RequestException _ |- _ => injection H as <-
    | H : Page _ _ = Page _ _ |- _ => injection H as <- <-
    | H : truthy (get (failed_snapshot _ _) _) = false |- _ =>
        rewrite truthy_error_failed in H by assumption; discriminate
    end.

Ltac no_fetch_made :=
  let Hf := fresh in intros Hf; exfalso; revert Hf; clear; lia.

Ltac was_interrupted :=
  let Hne := fresh in intros _ Hne; exfalso; apply Hne; reflexivity.

(** A tick whose request is answered by a request exception with a message
    leaves the stored snapshot and the log as they were; if the request was
    made and not interrupted, the tick ends with [continue]. *)
Lemma tick_request_exception st msg lat :
  source (world st) (fetched (world st)) = (RequestException msg, lat) ->
  msg <> EmptyString ->
  wp tick (fun o s' =>
    last_data (self s') = last_data (self st) /\
    changes_log (self s') = changes_log (self st) /\
    (fetched (world s') = S (fetched (world st)) ->
     o <> Raise KeyboardInterrupt ->
     o = Ret Continue /\
     stop_reason (locals s') = stop_reason (locals st) /\
     check_count (locals s') = S (check_count (locals st)))) st.
Proof.
  intros Hsrc Hmsg.
  repeat mstep.
  all: use_source Hsrc.
  all: split; [reflexivity|split; [reflexivity|]].
  all: try no_fetch_made.
  all: try was_interrupted.
  all: auto.
Qed.

(** A tick whose request is answered by a page, decoded or not: the snapshot
    is compared with the stored one, the changes are appended to the log, the
    snapshot is stored, and the tick ends with [break] exactly when changes
    were found and the monitor stops on change. *)
Lemma tick_page st p perr lat :
  source (world st) (fetched (world st)) = (Page p perr, lat) ->
  wp tick (fun o s' =>
    fetched (world s') = S (fetched (world st)) ->
    o <> Raise KeyboardInterrupt ->
    let d := page_snapshot (strftime_HMS (clock (world s') - Z.max 0 lat)) p perr in
    let changes :=
      _compare_data (strftime_HMS (clock (world s'))) (last_data (self st)) d in
    let stops := stop_on_change (self st) && nonempty changes in
    last_data (self s') = Some d /\
    changes_log (self s') = (changes_log (self st) ++ changes)%list /\
    check_count (locals s') = S (check_count (locals st)) /\
    o = Ret (if stops then Break else Continue) /\
    stop_reason (locals s') =
      (if stops then "change_detected" else stop_reason (locals st))) st.
Proof.
  intros Hsrc.
  repeat mstep.
  all: use_source Hsrc.
  all: try no_fetch_made.
  all: try was_interrupted.
  all: intros _ _; cbv zeta; rewrite !Z.add_simpl_r.
  all: match goal with H : _compare_data _ _ _ = _ |- _ => rewrite H end.
  all: match goal with
       | H : stop_on_change _ = _ |- _ => rewrite H
       | _ => idtac
       end.
  all: cbn [nonempty andb]; rewrite ?app_nil_r, ?andb_false_r; auto.
Qed.

(** ** The polling loop around a tick *)

Lemma still_running_entered s :
  loop_entered s -> still_running s = (Ret true, s).
Proof.
  intros [Hr Ht]. unfold still_running.
  cbv beta iota delta [bind gets datetime_now ret].
  rewrite Hr. apply Z.ltb_lt in Ht. now rewrite Ht.
Qed.

Lemma summary_returns s :
  summary s =
  (Ret (Result.mk (stop_reason (locals s)) (last_data (self s))
          (changes_log (self s))
          (Some (clock (world s) - start_time (locals s)))
          (Some (check_count (locals s)))),
   mkState (set_is_running (self s) false) (world s) (locals s)).
Proof. reflexivity. Qed.

Lemma polling_break fuel s s' :
  loop_entered s -> tick s = (Ret Break, s') ->
  polling (S fuel) s = (Ret tt, s').
Proof.
  intros He Ht. unfold polling, try_except_KeyboardInterrupt.
  cbn [while_loop]. unfold bind at 1. rewrite (still_running_entered s He).
  unfold bind. now rewrite Ht.
Qed.

Lemma polling_continue fuel s s' :
  loop_entered s -> tick s = (Ret Continue, s') ->
  polling (S fuel) s = polling fuel s'.
Proof.
  intros He Ht. unfold polling, try_except_KeyboardInterrupt.
  cbn [while_loop]. unfold bind at 1. rewrite (still_running_entered s He).
  unfold bind at 1. now rewrite Ht.
Qed.

Lemma polling_interrupted fuel s s' :
  loop_entered s -> tick s = (Raise KeyboardInterrupt, s') ->
  polling (S fuel) s = set_stop_reason "user_interrupt" s'.
Proof.
  intros He Ht. unfold polling, try_except_KeyboardInterrupt.
  cbn [while_loop]. unfold bind at 1. rewrite (still_running_entered s He).
  unfold bind at 1. now rewrite Ht.
Qed.

(** ** Stopping on a change *)

Lemma landing_scenario :
  exists r,
    fst (run 3 (example_monitor "12:10" true 14400)
           (example_world landing_source [] None)) = Ret r /\
    Result.status r = "change_detected" /\
    Result.total_checks r = Some 3%nat /\
    map Change.triple (Result.changes r) = [("landing", "N/A", "14:32")].
Proof. eexists. split; [vm_compute; reflexivity|]. repeat split. Qed.

(** C6.  Take a tick whose request is made, is not interrupted and is
    answered by a page.  The changes between the stored snapshot and the new
    one are appended to the log and the new snapshot is stored, whether or
    not the run stops.  If moreover the monitor stops on change and the list
    of changes is not empty, the tick leaves the loop and the run returns
    the status change_detected, with the new snapshot and the extended log.
    In the run where the landing time 14:32 first shows on the third request,
    the run returns change_detected after three checks with exactly one
    change, on landing, in its log. *)
Theorem stop_on_change_ends_the_run :
  forall (st st' : State) (o : outcome control) (p : Payload) (perr : value)
         (lat : Z),
    source (world st) (fetched (world st)) = (Page p perr, lat) ->
    tick st = (o, st') ->
    fetched (world st') = S (fetched (world st)) ->
    o <> Raise KeyboardInterrupt ->
    let d := page_snapshot (strftime_HMS (clock (world st') - Z.max 0 lat)) p perr in
    let changes :=
      _compare_data (strftime_HMS (clock (world st'))) (last_data (self st)) d in
    last_data (self st') = Some d /\
    changes_log (self st') = (changes_log (self st) ++ changes)%list /\
    (stop_on_change (self st) = true -> changes <> [] ->
     o = Ret Break /\
     (loop_entered st ->
      forall fuel, exists r,
        fst ((polling (S fuel) ;;; summary) st) = Ret r /\
        Result.status r = "change_detected" /\
        Result.data r = Some d /\
        Result.changes r = (changes_log (self st) ++ changes)%list)) /\
    (exists r,
       fst (run 3 (example_monitor "12:10" true 14400)
              (example_world landing_source [] None)) = Ret r /\
       Result.status r = "change_detected" /\
       Result.total_checks r = Some 3%nat /\
       map Change.triple (Result.changes r) = [("landing", "N/A", "14:32")]).
Proof.
  intros st st' o p perr lat Hsrc Htick Hf Hne d changes.
  pose proof (wp_intro _ _ _ _ _ (tick_page st p perr lat Hsrc) Htick Hf Hne)
    as (Hlast & Hlog & Hcount & Ho & Hreason).
  fold d in Hlast, Hlog, Ho, Hreason. fold changes in Hlog, Ho, Hreason.
  split; [exact Hlast|]. split; [exact Hlog|]. split; [|exact landing_scenario].
  intros Hstop Hch. rewrite Hstop in Ho, Hreason.
  destruct changes as [|c rest] eqn:E; [congruence|].
  cbn [andb nonempty] in Ho, Hreason. split; [exact Ho|].
  intros He fuel. subst o.
  eexists. split.
  - unfold bind. rewrite (polling_break fuel st st' He Htick).
    rewrite summary_returns. reflexivity.
  - cbn [Result.status Result.data Result.changes]. auto.
Qed.

Lemma stop_on_change_witness :
  source (world before_third_request) (fetched (world before_third_request)) =
    (flight_page (Some "14:32") "En Route", 2 * second) /\
  fst (tick before_third_request) = Ret Break /\
  exists r,
    fst ((polling 1 ;;; summary) before_third_request) = Ret r /\
    Result.status r = "change_detected".
Proof.
  split; [reflexivity|].
  pose proof (stop_on_change_ends_the_run before_third_request
                (snd (tick before_third_request))
                (fst (tick before_third_request))
                _ _ _ eq_refl (surjective_pairing _)) as H.
  assert (Hf : fetched (world (snd (tick before_third_request))) =
               S (fetched (world before_third_request)))
    by (vm_compute; reflexivity).
  assert (Hne : fst (tick before_third_request) <> Raise KeyboardInterrupt)
    by (vm_compute; discriminate).
  destruct (H Hf Hne) as (_ & _ & Hstop & _).
  assert (Hflag : stop_on_change (self before_third_request) = true)
    by reflexivity.
  destruct (Hstop Hflag) as [Hb Hrun]; [vm_compute; discriminate|].
  split; [exact Hb|].
  assert (He : loop_entered before_third_request)
    by (split; [reflexivity | vm_compute; reflexivity]).
  destruct (Hrun He 0%nat) as (r & Hr & Hs & _).
  exists r. auto.
Defined.

(** ** Snapshots that carry an error *)

(** C7, counterexample.  In a run whose second request meets a page that
    cannot be decoded, the tick goes on as after any page: the snapshot with
    the key parse_error, all of whose fields are [None], replaces the stored
    snapshot, and the next tick reports every field of the flight as changed
    from N/A. *)
Lemma undecodable_page_overwrites_snapshot :
  last_data (self (watching undecodable_source)) =
    Some (page_snapshot "12:00:00" (flight_payload None "En Route") None) /\
  fst (tick (watching undecodable_source)) = Ret Continue /\
  last_data (self (snd (tick (watching undecodable_source)))) =
    Some (page_snapshot "12:00:32" empty_payload (Some "Expecting value")) /\
  map Change.triple
    (changes_log (self (snd (tick (snd (tick (watching undecodable_source))))))) =
    [("takeoff", "N/A", "10:00"); ("takeoff_scheduled", "N/A", "10:05");
     ("landing_scheduled", "N/A", "14:00"); ("status", "N/A", "En Route")].
Proof. vm_compute. repeat split. Qed.

(** C7, as amended.  Whatever a tick does, if its request is answered by a
    request exception with a non-empty message, the stored snapshot and the
    log of changes are after the tick what they were before it.  If the
    request is made, is not interrupted and is answered by a page that could
    not be decoded, the snapshot that carries the key parse_error is
    compared with the stored one and stored in its place. *)
Theorem error_snapshot_is_skipped_parse_error_is_not :
  forall (st st' : State) (o : outcome control) (r : Response) (lat : Z),
    source (world st) (fetched (world st)) = (r, lat) ->
    tick st = (o, st') ->
    (forall msg, r = RequestException msg -> msg <> EmptyString ->
       last_data (self st') = last_data (self st) /\
       changes_log (self st') = changes_log (self st)) /\
    (forall p msg, r = Page p (Some msg) ->
       fetched (world st') = S (fetched (world st)) ->
       o <> Raise KeyboardInterrupt ->
       let d := page_snapshot (strftime_HMS (clock (world st') - Z.max 0 lat)) p
                  (Some msg) in
       last_data (self st') = Some d /\
       changes_log (self st') =
         (changes_log (self st) ++
          _compare_data (strftime_HMS (clock (world st'))) (last_data (self st)) d)%list).
Proof.
  intros st st' o r lat Hsrc Htick. split.
  - intros msg -> Hmsg.
    pose proof (wp_intro _ _ _ _ _ (tick_request_exception st msg lat Hsrc Hmsg)
                  Htick) as (H1 & H2 & _).
    now split.
  - intros p msg -> Hf Hne.
    pose proof (wp_intro _ _ _ _ _ (tick_page st p (Some msg) lat Hsrc) Htick
                  Hf Hne) as (H1 & H2 & _).
    now split.
Qed.

Lemma error_snapshot_witness :
  last_data (self (snd (tick (watching failing_source)))) =
    last_data (self (watching failing_source)) /\
  last_data (self (snd (tick (watching undecodable_source)))) =
    Some (page_snapshot "12:00:32" empty_payload (Some "Expecting value")).
Proof.
  split.
  - refine (proj1 (proj1 (error_snapshot_is_skipped_parse_error_is_not
       (watching failing_source) _ _ _ _ eq_refl (surjective_pairing _))
       _ eq_refl _)).
    discriminate.
  - refine (proj1 (proj2 (error_snapshot_is_skipped_parse_error_is_not
       (watching undecodable_source) _ _ _ _ eq_refl (surjective_pairing _))
       _ _ eq_refl _ _)).
    + vm_compute. reflexivity.
    + vm_compute. discriminate.
Defined.

(** ** Request exceptions on the first reading and later *)

Lemma start_baseline_error fuel st st1 msg lat :
  _wait_until_start fuel st = (Ret true, st1) ->
  source (world st1) (fetched (world st1)) = (RequestException msg, lat) ->
  msg <> EmptyString ->
  quiet (clock (world st1)) (clock (world st1) + Z.max 0 lat) (world st1) ->
  fst (start fuel st) =
  Ret (Result.mk "error"
         (Some (failed_snapshot (strftime_HMS (clock (world st1))) msg)) [] None
         None).
Proof.
  intros Hwait Hsrc Hmsg Hq. apply quiet_sigint_between in Hq.
  apply wp_fst. unfold start. eapply wp_bind_eq; [exact Hwait|].
  cbn [negb].
  repeat mstep.
  all: use_source Hsrc.
  all: congruence.
Qed.

Lemma failing_scenario :
  exists r,
    fst (run 4 (example_monitor "12:10" true 14400)
           (example_world failing_source [] None)) = Ret r /\
    Result.status r = "change_detected" /\
    Result.total_checks r = Some 4%nat /\
    map Change.triple (Result.changes r) =
      [("landing", "N/A", "14:32"); ("status", "En Route", "Landed")].
Proof. eexists. split; [vm_compute; reflexivity|]. repeat split. Qed.



(** ** The status of a result *)

Lemma wp_any {A} (c : M A) s : wp c (fun _ _ => True) s.
Proof. unfold wp. now destruct (c s). Qed.

(** A property of the state kept by the condition and by the body of a loop
    is kept by the loop, however it ends. *)
Lemma wp_while_inv (I : State -> Prop) (cond : M bool) (body : M control) :
  (forall s, I s -> wp cond (fun _ s' => I s') s) ->
  (forall s, I s -> wp body (fun _ s' => I s') s) ->
  forall fuel s, I s -> wp (while_loop fuel cond body) (fun _ s' => I s') s.
Proof.
  intros Hc Hb. induction fuel as [|fuel IH]; intros s Hs.
  - exact Hs.
  - apply wp_while_S, wp_bind.
    apply (wp_mono _ _ _ _ (Hc s Hs)). intros [b| |] s1 H1; try exact H1.
    destruct b; [|exact H1].
    apply wp_bind. apply (wp_mono _ _ _ _ (Hb s1 H1)).
    intros [[|]| |] s2 H2; try exact H2. now apply IH.
Qed.

Lemma tick_keeps_reason s :
  In (stop_reason (locals s)) loop_reasons ->
  wp tick (fun _ s' => In (stop_reason (locals s')) loop_reasons) s.
Proof.
  intros H. repeat mstep.
  all: try assumption.
  all: simpl; auto.
Qed.

Lemma polling_reason fuel s :
  In (stop_reason (locals s)) loop_reasons ->
  wp (polling fuel)
    (fun _ s' => In (stop_reason (locals s')) ("user_interrupt" :: loop_reasons)) s.
Proof.
  intros H. unfold polling. apply wp_try.
  apply (wp_mono _ (fun _ s' => In (stop_reason (locals s')) loop_reasons)).
  - apply (wp_while_inv (fun s => In (stop_reason (locals s)) loop_reasons));
      [|exact tick_keeps_reason|exact H].
    intros s0 H0. unfold still_running. repeat mstep. exact H0.
  - intros [a|[| |n]|] s' H'; try (right; exact H').
    repeat mstep. now left.
Qed.

Lemma start_status fuel s :
  wp (start fuel)
    (fun o _ => match o with
                | Ret r => In (Result.status r) code_statuses
                | _ => True
                end) s.
Proof.
  unfold start. apply wp_bind.
  apply (wp_mono _ _ _ _ (wp_any _ s)). intros [ok| |] s1 _; try exact I.
  destruct ok; cbn [negb]; [|repeat mstep; simpl; auto].
  repeat mstep; try exact I; try (simpl; now auto).
  all: fold (polling fuel).
  all: apply wp_bind.
  all: match goal with
       | |- wp (polling _) _ ?s =>
           apply (wp_mono _ _ _ _ (polling_reason fuel s (or_introl eq_refl)))
       end.
  all: intros [[]| |] s2 H2; try exact I.
  all: repeat mstep.
  all: revert H2; simpl; intuition.
Qed.

Ltac unmet Hc :=
  unfold condition_unmet in Hc;
  repeat match goal with
    | H : stop_condition _ = _ |- _ => rewrite H in Hc
    end;
  try congruence.

Ltac comparisons :=
  repeat match goal with
    | H : (_ <=? _) = true |- _ => apply Z.leb_le in H
    | H : (_ <? _) = true |- _ => apply Z.ltb_lt in H
    | H : (_ <=? _) = false |- _ => apply Z.leb_gt in H
    | H : (_ <? _) = false |- _ => apply Z.ltb_ge in H
    end.

(** A call of [stop()] during the sleep of a tick: the tick leaves the loop
    with the reason stopped, before any request. *)
Lemma tick_stop_during_sleep st :
  condition_unmet st ->
  0 < remaining st ->
  0 <= check_interval (self st) ->
  quiet (clock (world st)) (clock (world st) + sleep_of st) (world st) ->
  stop_between (clock (world st)) (clock (world st) + sleep_of st)
    (stop_calls (world st)) = true ->
  wp tick (fun o s' =>
    o = Ret Break /\ stop_reason (locals s') = "stopped" /\
    fetched (world s') = fetched (world st)) st.
Proof.
  intros Hc Hrem Hint Hq Hstop.
  apply quiet_sigint_between in Hq.
  assert (Hmax : Z.max 0 (sleep_of st) = sleep_of st)
    by (unfold sleep_of, second; lia).
  unfold sleep_of, remaining in *.
  repeat mstep.
  all: unmet Hc.
  all: comparisons.
  all: try (exfalso; unfold second in *; lia).
  all: try rewrite Hmax in *.
  all: try congruence.
  all: try (rewrite Hstop in *; rewrite andb_false_r in *; discriminate).
  all: auto.
Qed.

(** The interrupt signal during the sleep of a tick. *)
Lemma tick_interrupted_in_sleep st i :
  condition_unmet st ->
  0 < remaining st ->
  0 <= check_interval (self st) ->
  sigint_between (clock (world st)) (clock (world st) + sleep_of st) (world st)
    = Some i ->
  wp tick (fun o s' =>
    o = Raise KeyboardInterrupt /\ clock (world s') = i /\
    stop_reason (locals s') = stop_reason (locals st) /\
    fetched (world s') = fetched (world st)) st.
Proof.
  intros Hc Hrem Hint Hsig.
  assert (Hmax : Z.max 0 (sleep_of st) = sleep_of st)
    by (unfold sleep_of, second; lia).
  unfold sleep_of, remaining in *.
  repeat mstep.
  all: unmet Hc.
  all: comparisons.
  all: try (exfalso; unfold second in *; lia).
  all: try rewrite Hmax in *.
  all: try congruence.
  all: repeat split; congruence.
Qed.

Lemma loop_entered_remaining st : loop_entered st -> 0 < remaining st.
Proof. intros [_ H]. unfold remaining. lia. Qed.




(** ** Waiting for the start *)

Lemma waited_refl s : waited s s.
Proof. now repeat split. Qed.

Lemma waited_trans s1 s2 s3 : waited s1 s2 -> waited s2 s3 -> waited s1 s3.
Proof. intros (A1 & B1 & C1) (A2 & B2 & C2). repeat split; congruence. Qed.

Lemma waited_pass t s : waited s (pass t s).
Proof.
  repeat split.
  rewrite self_pass. now destruct (self s).
Qed.

Lemma countdown_S fuel target Q s :
  wp (b <- (now <- datetime_now ;; ret (now <? target)) ;;
      if b then
        c <- (sleep second ;;; ret Continue) ;;
        match c with
        | Continue => countdown fuel target
        | Break => ret tt
        end
      else ret tt) Q s ->
  wp (countdown (S fuel) target) Q s.
Proof. exact (fun H => H). Qed.

Lemma countdown_quiet (n : nat) : forall fuel s target,
  (n < fuel)%nat ->
  target <= clock (world s) + Z.of_nat n * second ->
  (0 < Z.of_nat n -> clock (world s) + (Z.of_nat n - 1) * second < target) ->
  quiet (clock (world s)) (clock (world s) + Z.of_nat n * second) (world s) ->
  wp (countdown fuel target)
    (fun o s' => o = Ret tt /\
                 clock (world s') = clock (world s) + Z.of_nat n * second /\
                 waited s s') s.
Proof.
  induction n as [|n IH]; intros fuel s target Hfuel Hreach Hnot Hq;
    (destruct fuel as [|fuel]; [lia|]); apply countdown_S; repeat mstep;
    comparisons; try discriminate.
  all: try (exfalso; unfold second in *; lia).
  all: try match goal with
       | H : sigint_between _ _ _ = Some _ |- _ =>
           exfalso; apply sigint_between_Some in H; destruct H as [Hs Hr];
           destruct (Hq _ Hs); unfold second in *; lia
       end.
  - split; [reflexivity|]. split; [unfold second; lia|apply waited_refl].
  - change (Z.max 0 second) with second in *.
    eapply wp_mono.
    + apply (IH fuel); proj; try (unfold second in *; lia).
      intros j Hj. proj_in Hj. destruct (Hq j Hj); unfold second in *; lia.
    + cbv beta. intros o s' (-> & Hc & Hw). proj_in Hc.
      split; [reflexivity|]. split; [unfold second in *; lia|].
      eapply waited_trans; [apply waited_pass|exact Hw].
Qed.

Lemma countdown_interrupted (n : nat) : forall fuel s target i,
  (n < fuel)%nat ->
  sigint (world s) = Some i ->
  clock (world s) + Z.of_nat n * second < i <=
    clock (world s) + (Z.of_nat n + 1) * second ->
  clock (world s) + Z.of_nat n * second < target ->
  wp (countdown fuel target)
    (fun o s' => o = Raise KeyboardInterrupt /\
                 clock (world s') = i /\
                 fetched (world s') = fetched (world s)) s.
Proof.
  induction n as [|n IH]; intros fuel s target i Hfuel Hi Hin Hnot;
    (destruct fuel as [|fuel]; [lia|]); apply countdown_S; repeat mstep;
    comparisons; try discriminate.
  all: try (exfalso; unfold second in *; lia).
  all: change (Z.max 0 second) with second in *.
  all: try match goal with
       | H : sigint_between _ _ _ = Some _ |- _ =>
           apply sigint_between_Some in H; destruct H as [Hs Hr];
           rewrite Hi in Hs; injection Hs as <-
       end.
  all: try match goal with
       | H : sigint_between _ _ _ = None |- _ =>
           apply quiet_sigint_between in H; specialize (H _ Hi)
       end.
  all: try (exfalso; unfold second in *; lia).
  all: try (repeat split; reflexivity).
  eapply wp_mono.
  - apply (IH fuel _ _ i); proj; try assumption;
      try (unfold second in *; lia).
  - cbv beta. intros o s' (-> & Hc & Hw). proj_in Hw. auto.
Qed.

Lemma replace_well_formed now h m :
  0 <= h <= 23 -> 0 <= m <= 59 -> replace now h m = inr (on_day_of now h m).
Proof.
  intros Hh Hm. unfold replace, on_day_of.
  replace ((0 <=? h) && (h <=? 23) && (0 <=? m) && (m <=? 59)) with true;
    [reflexivity|].
  symmetry. repeat (apply andb_true_intro; split); apply Z.leb_le; lia.
Qed.

Lemma wait_end_steps now target :
  now < target ->
  let n := Z.to_nat ((target - now + second - 1) / second) in
  wait_end now target = now + Z.of_nat n * second /\
  target <= now + Z.of_nat n * second /\
  now + (Z.of_nat n - 1) * second < target.
Proof.
  intros H n. unfold wait_end.
  destruct (target <=? now) eqn:E; comparisons; [lia|].
  assert (Hq : 0 <= (target - now + second - 1) / second)
    by (apply Z.div_pos; unfold second; lia).
  unfold n. rewrite Z2Nat.id by exact Hq.
  split; [reflexivity|].
  pose proof (Z.div_mod (target - now + second - 1) second) as Hd.
  pose proof (Z.mod_pos_bound (target - now + second - 1) second) as Hm.
  unfold second in *. lia.
Qed.

Ltac time_known Hreplace :=
  repeat match goal with
    | H : inl _ = inr _ |- _ => discriminate H
    | H : inr ?p = inr (_, _) |- _ => injection H as H; subst p
    end;
  cbn [fst snd] in *;
  repeat match goal with
    | H : replace _ _ _ = _ |- _ =>
        rewrite Hreplace in H;
        first [discriminate H | injection H as H; subst]
    end.

Lemma wait_starts_now st h m fuel :
  well_formed_time (scheduled_time (self st)) h m ->
  start_at st h m <= clock (world st) ->
  wp (_wait_until_start fuel) (fun o s' => o = Ret true /\ s' = st) st.
Proof.
  intros (Hparse & Hh & Hm) Hnow.
  pose proof (replace_well_formed (clock (world st)) h m Hh Hm) as Hreplace.
  unfold start_at in Hnow.
  unfold _wait_until_start. repeat mstep.
  all: time_known Hreplace.
  all: comparisons.
  all: try (exfalso; lia).
  all: destruct st; auto.
Qed.

Lemma wait_quiet st h m fuel :
  well_formed_time (scheduled_time (self st)) h m ->
  clock (world st) < start_at st h m ->
  quiet (clock (world st)) (wait_end (clock (world st)) (start_at st h m))
    (world st) ->
  (Z.to_nat ((start_at st h m - clock (world st) + second - 1) / second) < fuel)%nat ->
  wp (_wait_until_start fuel)
    (fun o s' => o = Ret true /\
                 clock (world s') = wait_end (clock (world st)) (start_at st h m) /\
                 waited st s') st.
Proof.
  intros (Hparse & Hh & Hm) Hnow Hq Hfuel.
  pose proof (replace_well_formed (clock (world st)) h m Hh Hm) as Hreplace.
  destruct (wait_end_steps _ _ Hnow) as (He & Hreach & Hnot).
  rewrite He in *.
  unfold start_at in *.
  unfold _wait_until_start. repeat mstep.
  all: time_known Hreplace.
  all: comparisons.
  all: try (exfalso; lia).
  apply wp_try, wp_bind.
  eapply wp_mono.
  - apply (countdown_quiet _ fuel st _ Hfuel Hreach); [intros _; exact Hnot|exact Hq].
  - cbv beta. intros o s' (-> & Hc & Hw). mstep. auto.
Qed.

Lemma wait_interrupted st h m i fuel :
  well_formed_time (scheduled_time (self st)) h m ->
  sigint (world st) = Some i ->
  clock (world st) < i <= start_at st h m ->
  (Z.to_nat ((i - clock (world st) - 1) / second) < fuel)%nat ->
  wp (_wait_until_start fuel)
    (fun o s' => o = Ret false /\ clock (world s') = i /\
                 fetched (world s') = fetched (world st)) st.
Proof.
  intros (Hparse & Hh & Hm) Hi Hin Hfuel.
  pose proof (replace_well_formed (clock (world st)) h m Hh Hm) as Hreplace.
  unfold start_at in *.
  unfold _wait_until_start. repeat mstep.
  all: time_known Hreplace.
  all: comparisons.
  all: try (exfalso; lia).
  apply wp_try, wp_bind.
  assert (Hq : 0 <= (i - clock (world st) - 1) / second)
    by (apply Z.div_pos; unfold second; lia).
  pose proof (Z.div_mod (i - clock (world st) - 1) second) as Hd.
  pose proof (Z.mod_pos_bound (i - clock (world st) - 1) second) as Hmod.
  eapply wp_mono.
  - apply (countdown_interrupted _ fuel st _ i Hfuel Hi);
      rewrite Z2Nat.id by exact Hq; unfold second in *; lia.
  - cbv beta. intros o s' (-> & Hc & Hw). mstep. auto.
Qed.

Lemma parse_time_result st h m :
  well_formed_time (scheduled_time (self st)) h m ->
  wp (_parse_time (scheduled_time (self st)))
    (fun o s' =>
       o = Ret (if (start_at st h m <? clock (world st)) &&
                   (60 * second <? clock (world st) - start_at st h m)
                then on_day_of (clock (world st)) h m + day
                else on_day_of (clock (world st)) h m) /\
       s' = st) st.
Proof.
  intros (Hparse & Hh & Hm).
  pose proof (replace_well_formed (clock (world st)) h m Hh Hm) as Hreplace.
  unfold start_at.
  unfold _parse_time. repeat mstep.
  all: time_known Hreplace.
  all: match goal with
       | H : _ && _ = _ |- _ => rewrite H
       end.
  all: destruct st; auto.
Qed.

(** ** The Scheduled to Waiting transition *)




(** ** Cancelling while waiting *)


Lemma start_cancelled st h m i fuel :
  well_formed_time (scheduled_time (self st)) h m ->
  sigint (world st) = Some i ->
  clock (world st) < i <= start_at st h m ->
  (Z.to_nat ((i - clock (world st) - 1) / second) < fuel)%nat ->
  wp (start fuel)
    (fun o s' => o = Ret (Result.mk "cancelled" None [] None None) /\
                 clock (world s') = i /\
                 fetched (world s') = fetched (world st)) st.
Proof.
  intros Hwf Hi Hin Hfuel. unfold start. apply wp_bind.
  apply (wp_mono _ _ _ _ (wait_interrupted st h m i fuel Hwf Hi Hin Hfuel)).
  cbv beta. intros o s' (-> & Hc & Hf). cbn [negb]. mstep. auto.
Qed.



(** ** The run comes to an end *)

Lemma seconds_left_decreases rem rem' ivs :
  0 < rem -> second <= ivs -> rem' <= rem - Z.min ivs rem ->
  (Z.to_nat ((rem' + second - 1) / second) <
   Z.to_nat ((rem + second - 1) / second))%nat.
Proof.
  intros Hrem Hiv Hle. unfold second in *.
  Z.to_euclidean_division_equations. lia.
Qed.

Lemma wp_while_total (I : State -> Prop) (mu : State -> nat)
    (cond : M bool) (body : M control) :
  (forall s, I s -> exists b, cond s = (Ret b, s)) ->
  (forall s, I s -> cond s = (Ret true, s) ->
     wp body (fun o s' =>
       I s' /\
       match o with
       | Ret Continue => (mu s' < mu s)%nat
       | Ret Break => True
       | Raise e => e = KeyboardInterrupt
       | OutOfFuel => False
       end) s) ->
  forall fuel s, I s -> (mu s < fuel)%nat ->
    wp (while_loop fuel cond body) (fun o s' =>
       I s' /\ (o = Ret tt \/ o = Raise KeyboardInterrupt)) s.
Proof.
  intros Hc Hb. induction fuel as [|fuel IH]; intros s Hs Hmu; [lia|].
  apply wp_while_S. destruct (Hc s Hs) as [b Hcond].
  eapply wp_bind_eq; [exact Hcond|].
  destruct b; [|apply wp_ret; auto].
  apply wp_bind. apply (wp_mono _ _ _ _ (Hb s Hs Hcond)).
  intros [[|]|e|] s' [Hs' Ho].
  - apply IH; [exact Hs'|lia].
  - apply wp_ret. auto.
  - subst e. auto.
  - contradiction.
Qed.

Lemma tick_progress m t0 src s :
  0 < check_interval m ->
  never_raises (stop_condition m) ->
  never_crashes src ->
  steady m t0 src s ->
  0 < remaining s ->
  wp tick (fun o s' =>
    steady m t0 src s' /\
    match o with
    | Ret Continue => (seconds_left s' < seconds_left s)%nat
    | Ret Break => True
    | Raise e => e = KeyboardInterrupt
    | OutOfFuel => False
    end) s.
Proof.
  intros Hiv Hcond Hsrc (H1 & H2 & H3 & H4 & H5) Hrem.
  unfold steady, seconds_left, remaining in *.
  repeat mstep.
  all: (split; [repeat split; congruence|]).
  all: try exact I.
  all: try reflexivity.
  all: comparisons.
  all: try (exfalso; unfold second in *; lia).
  all: try match goal with
       | H : ?f _ = inl _, H' : Some ?f = stop_condition _ |- _ =>
           destruct (Hcond f (world s) (eq_sym H')) as [b' Hb']; congruence
       | H : fst (source _ _) = Crash _ |- _ =>
           exfalso; rewrite H5 in H; exact (Hsrc _ _ H)
       end.
  all: apply (seconds_left_decreases _ _ (check_interval (self s) * second));
    unfold second in *; lia.
Qed.

Lemma still_running_pure s :
  exists b, still_running s = (Ret b, s).
Proof. eexists. reflexivity. Qed.

Lemma still_running_remaining s :
  still_running s = (Ret true, s) -> 0 < remaining s.
Proof.
  unfold still_running. cbv beta iota delta [bind gets datetime_now ret].
  intros [= H]. apply andb_true_iff in H. destruct H as [_ H].
  apply Z.ltb_lt in H. unfold remaining. lia.
Qed.

Lemma polling_total m t0 src fuel s :
  0 < check_interval m ->
  never_raises (stop_condition m) ->
  never_crashes src ->
  steady m t0 src s ->
  (seconds_left s < fuel)%nat ->
  wp (polling fuel) (fun o s' => o = Ret tt /\ start_time (locals s') = t0) s.
Proof.
  intros Hiv Hcond Hsrc Hs Hfuel. unfold polling. apply wp_try.
  eapply wp_mono.
  - refine (wp_while_total (steady m t0 src) seconds_left still_running tick
              _ _ fuel s Hs Hfuel).
    + intros s0 _. apply still_running_pure.
    + intros s0 Hs0 Hc.
      apply (tick_progress m t0 src s0 Hiv Hcond Hsrc Hs0),
            still_running_remaining, Hc.
  - cbv beta. intros o s' [(_ & _ & _ & Ht & _) [-> | ->]].
    + auto.
    + repeat mstep. auto.
Qed.

Lemma seconds_left_bound rem lim :
  rem <= lim * second ->
  (Z.to_nat ((rem + second - 1) / second) <= Z.to_nat lim)%nat.
Proof.
  intros H. unfold second in *.
  Z.to_euclidean_division_equations. lia.
Qed.

Lemma start_total_after_wait fuel st s1 :
  _wait_until_start fuel st = (Ret true, s1) ->
  0 < check_interval (self s1) ->
  never_raises (stop_condition (self s1)) ->
  never_crashes (source (world s1)) ->
  quiet (clock (world s1))
    (clock (world s1) + Z.max 0 (snd (source (world s1) (fetched (world s1)))))
    (world s1) ->
  (Z.to_nat (max_duration_seconds (self s1)) < fuel)%nat ->
  wp (start fuel) (fun o _ => exists r, o = Ret r) st.
Proof.
  intros Hwait Hiv Hcond Hsrc Hq Hfuel.
  apply quiet_sigint_between in Hq.
  unfold start. eapply wp_bind_eq; [exact Hwait|]. cbn [negb].
  repeat mstep.
  all: try congruence.
  all: try (eexists; reflexivity).
  all: try match goal with
       | H : fst (source _ _) = Crash _ |- _ => exfalso; exact (Hsrc _ _ H)
       end.
  all: apply wp_bind.
  all: eapply wp_mono;
    [ apply (polling_total (self s1) (clock (world s1)) (source (world s1)) fuel);
      [ exact Hiv | exact Hcond | exact Hsrc
      | unfold steady; proj; repeat split; reflexivity
      | eapply Nat.le_lt_trans; [|exact Hfuel];
        unfold seconds_left, remaining; proj;
        apply seconds_left_bound; lia ]
    | cbv beta; intros o s' [-> _]; repeat mstep; eexists; reflexivity ].
Qed.

(** ** Exceptions that leave [start] *)


Lemma waited_fields s s' :
  waited s s' ->
  check_interval (self s') = check_interval (self s) /\
  max_duration_seconds (self s') = max_duration_seconds (self s) /\
  stop_condition (self s') = stop_condition (self s) /\
  source (world s') = source (world s) /\
  fetched (world s') = fetched (world s) /\
  sigint (world s') = sigint (world s).
Proof.
  intros (_ & Hw & Hs).
  assert (A : forall m, check_interval m = check_interval (set_is_running m true))
    by reflexivity.
  assert (B : forall m, max_duration_seconds m =
                        max_duration_seconds (set_is_running m true))
    by reflexivity.
  assert (C : forall m, stop_condition m = stop_condition (set_is_running m true))
    by reflexivity.
  assert (D : forall w, source w = source (set_clock w 0)) by reflexivity.
  assert (E : forall w, fetched w = fetched (set_clock w 0)) by reflexivity.
  assert (F : forall w, sigint w = sigint (set_clock w 0)) by reflexivity.
  rewrite (A (self s')), (B (self s')), (C (self s')), (D (world s')),
          (E (world s')), (F (world s')), Hs, Hw.
  repeat split.
Qed.

Lemma wait_interrupted_late st h m i fuel :
  well_formed_time (scheduled_time (self st)) h m ->
  sigint (world st) = Some i ->
  clock (world st) < start_at st h m ->
  clock (world st) < i <= wait_end (clock (world st)) (start_at st h m) ->
  (Z.to_nat ((start_at st h m - clock (world st) + second - 1) / second) < fuel)%nat ->
  wp (_wait_until_start fuel)
    (fun o s' => o = Ret false /\ clock (world s') = i /\
                 fetched (world s') = fetched (world st)) st.
Proof.
  intros (Hparse & Hh & Hm) Hi Hfuture Hin Hfuel.
  pose proof (replace_well_formed (clock (world st)) h m Hh Hm) as Hreplace.
  destruct (wait_end_steps _ _ Hfuture) as (He & Hreach & Hnot).
  rewrite He in Hin.
  assert (HN : 0 <= (start_at st h m - clock (world st) + second - 1) / second)
    by (apply Z.div_pos; unfold second; lia).
  rewrite Z2Nat.id in Hin, Hreach, Hnot by exact HN.
  unfold start_at in *.
  unfold _wait_until_start. repeat mstep.
  all: time_known Hreplace.
  all: comparisons.
  all: try (exfalso; lia).
  apply wp_try, wp_bind.
  assert (Hq : 0 <= (i - clock (world st) - 1) / second)
    by (apply Z.div_pos; unfold second; lia).
  eapply wp_mono.
  - apply (countdown_interrupted
             (Z.to_nat ((i - clock (world st) - 1) / second)) fuel st _ i);
      [| exact Hi | |];
      try rewrite Z2Nat.id by exact Hq;
      unfold second in *; Z.to_euclidean_division_equations; lia.
  - cbv beta. intros o s' (-> & Hc & Hw). mstep. auto.
Qed.

Lemma wp_returns {A} (c : M A) s :
  wp c (fun o _ => exists r, o = Ret r) s -> exists r s', c s = (Ret r, s').
Proof.
  unfold wp. destruct (c s) as [o s']. intros [r ->]. now exists r, s'.
Qed.

Lemma wp_equation {A} (c : M A) (a : A) (P : State -> Prop) s :
  wp c (fun o s' => o = Ret a /\ P s') s -> exists s', c s = (Ret a, s') /\ P s'.
Proof.
  unfold wp. destruct (c s) as [o s']. intros [-> H]. now exists s'.
Qed.



(** ** What the constructor accepts *)

Lemma parse_error_is_ValueError s e :
  parse_hour_minute s = inl e -> e = ValueError.
Proof.
  unfold parse_hour_minute.
  destruct (split_colon EmptyString s) as [|a [|b [|c l]]]; try congruence.
  destruct (int a), (int b); congruence.
Qed.

Lemma replace_cases now h m :
  (replace now h m = inr (on_day_of now h m) /\ 0 <= h <= 23 /\ 0 <= m <= 59) \/
  (replace now h m = inl ValueError /\ ~ (0 <= h <= 23 /\ 0 <= m <= 59)).
Proof.
  unfold replace, on_day_of.
  destruct ((0 <=? h) && (h <=? 23) && (0 <=? m) && (m <=? 59)) eqn:E.
  - left. split; [reflexivity|].
    repeat (apply andb_true_iff in E; destruct E as [E ?]). comparisons. lia.
  - right. split; [reflexivity|]. intros [Hh Hm].
    assert (E' : (0 <=? h) && (h <=? 23) && (0 <=? m) && (m <=? 59) = true)
      by (repeat (apply andb_true_intro; split); apply Z.leb_le; lia).
    congruence.
Qed.

Lemma wait_malformed st fuel :
  (forall h m, ~ well_formed_time (scheduled_time (self st)) h m) ->
  wp (_wait_until_start fuel) (fun o s' => o = Raise ValueError /\ s' = st) st.
Proof.
  intros Hbad. unfold _wait_until_start.
  mstep. mstep. mstep.
  destruct (parse_hour_minute (scheduled_time (self st))) as [e|[h m]] eqn:Hparse.
  - unfold lift at 1. cbv iota. mstep.
    rewrite (parse_error_is_ValueError _ _ Hparse). now destruct st.
  - unfold lift at 1. cbv iota. mstep. cbn [fst snd].
    destruct (replace_cases (clock (world st)) h m) as [[_ Hr]|[-> _]].
    + exfalso. apply (Hbad h m). split; [exact Hparse|exact Hr].
    + unfold lift at 1. cbv iota. mstep. now destruct st.
Qed.

Lemma tick_negative_interval st :
  condition_unmet st ->
  0 < remaining st ->
  check_interval (self st) < 0 ->
  wp tick (fun o s' => o = Raise ValueError /\
                       fetched (world s') = fetched (world st)) st.
Proof.
  intros Hc Hrem Hiv. unfold remaining in *.
  repeat mstep.
  all: unmet Hc.
  all: comparisons.
  all: try (exfalso; unfold second in *; lia).
  all: auto.
Qed.

Lemma polling_raises fuel s s' e :
  loop_entered s -> tick s = (Raise e, s') -> e <> KeyboardInterrupt ->
  polling (S fuel) s = (Raise e, s').
Proof.
  intros He Ht Hne. unfold polling, try_except_KeyboardInterrupt.
  cbn [while_loop]. unfold bind at 1. rewrite (still_running_entered s He).
  unfold bind at 1. rewrite Ht. destruct e; congruence.
Qed.




(** * Properties of a whole run *)

(** ** Invariants of the wait and of the loop *)

Lemma extends_refl {A} (l : list A) : extends l l.
Proof. exists []. now rewrite app_nil_r. Qed.

Lemma extends_app {A} (l l' more : list A) : extends l l' -> extends l (l' ++ more)%list.
Proof. intros [a ->]. exists (a ++ more)%list. now rewrite app_assoc. Qed.

Lemma wait_keeps (I : State -> Prop) :
  (forall s t, I s -> I (pass t s)) ->
  (forall s i, I s -> I (interrupt_at i s)) ->
  forall fuel s, I s -> wp (_wait_until_start fuel) (fun _ s' => I s') s.
Proof.
  intros Hp Hi fuel s Hs. unfold _wait_until_start. repeat mstep; try exact Hs.
  apply wp_try, wp_bind.
  eapply wp_mono.
  - unfold countdown.
    apply (wp_while_inv I); [| |exact Hs].
    + intros s0 H0. repeat mstep. exact H0.
    + intros s0 H0. repeat mstep; auto.
  - cbv beta. intros [[]|[| |n]|] s' H'; repeat mstep; exact H'.
Qed.

(** ** The log of changes *)

Lemma tick_log_grows log0 s :
  extends log0 (changes_log (self s)) ->
  wp tick (fun _ s' => extends log0 (changes_log (self s'))) s.
Proof.
  intros H. repeat mstep.
  all: try assumption.
  all: try (apply extends_app; assumption).
Qed.

Lemma polling_keeps (I : State -> Prop) fuel :
  (forall s, I s -> wp tick (fun _ s' => I s') s) ->
  (forall s r, I s -> I (mkState (self s) (world s)
                          (mkLocals (start_time (locals s)) (check_count (locals s)) r))) ->
  forall s, I s -> wp (polling fuel) (fun _ s' => I s') s.
Proof.
  intros Ht Hr s Hs. unfold polling. apply wp_try.
  eapply wp_mono.
  - apply (wp_while_inv I); [|exact Ht|exact Hs].
    intros s0 H0. unfold still_running. repeat mstep. exact H0.
  - cbv beta. intros [a|[| |n]|] s' H'; try exact H'.
    repeat mstep. apply Hr, H'.
Qed.

Lemma start_log fuel st :
  wp (start fuel) (fun o s' =>
    extends (changes_log (self st)) (changes_log (self s')) /\
    match o with
    | Ret r => Result.changes r =
               match Result.total_checks r with
               | Some _ => changes_log (self s')
               | None => []
               end
    | _ => True
    end) st.
Proof.
  unfold start. apply wp_bind.
  eapply wp_mono.
  - apply (wait_keeps (fun s => extends (changes_log (self st)) (changes_log (self s)))).
    + intros s t H. now proj.
    + intros s i H. now proj.
    + apply extends_refl.
  - cbv beta. intros [ok| |] s1 H1; try (split; [exact H1|exact I]).
    destruct ok; cbn [negb]; [|repeat mstep; split; [exact H1|reflexivity]].
    repeat mstep; try (split; [exact H1|exact I || reflexivity]).
    all: fold (polling fuel).
    all: apply wp_bind.
    all: eapply wp_mono;
      [ apply (polling_keeps (fun s => extends (changes_log (self st)) (changes_log (self s))));
        [ intros s0 H0; apply tick_log_grows, H0
        | intros s0 r H0; exact H0
        | proj; exact H1 ]
      | cbv beta; intros [[]| |] s2 H2; try (split; [exact H2|exact I]);
        repeat mstep; split; [exact H2|reflexivity] ].
Qed.

(** ** The number of checks *)

Lemma tick_counted f0 s :
  counted f0 s -> wp tick (fun _ s' => counted f0 s') s.
Proof.
  unfold counted. intros [H1 H]. repeat mstep.
  all: try (split; assumption).
  all: try (rewrite H; lia).
Qed.

Lemma start_counted fuel st :
  wp (start fuel) (fun o s' =>
    match o with
    | Ret r =>
        match Result.total_checks r with
        | Some n => (1 <= n)%nat /\ fetched (world s') = (fetched (world st) + n)%nat
        | None =>
            fetched (world s') =
            (fetched (world st) + if String.eqb (Result.status r) "cancelled" then 0 else 1)%nat
        end
    | _ => True
    end) st.
Proof.
  unfold start. apply wp_bind.
  eapply wp_mono.
  - apply (wait_keeps (fun s => fetched (world s) = fetched (world st)));
      [intros s t H; now proj|intros s i H; now proj|reflexivity].
  - cbv beta. intros [ok| |] s1 H1; try exact I.
    destruct ok; cbn [negb]; [|repeat mstep; rewrite H1; cbn; lia].
    repeat mstep; try exact I; try (rewrite H1; cbn; lia).
    all: fold (polling fuel).
    all: apply wp_bind.
    all: eapply wp_mono;
      [ apply (polling_keeps (counted (fetched (world st))));
        [ intros s0 H0; apply tick_counted, H0
        | intros s0 r H0; exact H0
        | unfold counted; proj; rewrite H1; lia ]
      | cbv beta; intros [[]| |] s2 H2; try exact I;
        repeat mstep; exact H2 ].
Qed.

(** ** The duration of a run *)

Lemma tick_on_time src lim L t0 s :
  (forall n, snd (src n) <= L) -> 0 <= L ->
  on_time src lim L t0 s -> wp tick (fun _ s' => on_time src lim L t0 s') s.
Proof.
  unfold on_time. intros HL H0 (H1 & H2 & H3 & H4).
  pose proof (HL (fetched (world s))) as Hlat. rewrite <- H1 in Hlat.
  repeat mstep.
  all: try (repeat split; first [assumption | lia]).
  all: comparisons.
  all: repeat match goal with
       | H : sigint_between _ _ _ = Some _ |- _ =>
           apply sigint_between_Some in H; destruct H as [_ H]
       end.
  all: repeat split; try assumption; unfold second in *; lia.
Qed.

Lemma start_on_time fuel st L :
  (forall n, snd (source (world st) n) <= L) -> 0 <= L ->
  wp (start fuel) (fun o s' =>
    match o with
    | Ret r =>
        match Result.duration_seconds r with
        | Some d => 0 <= d <= Z.max 0 (max_duration_seconds (self st) * second) + L
        | None => True
        end
    | _ => True
    end) st.
Proof.
  intros HL H0. unfold start. apply wp_bind.
  eapply wp_mono.
  - apply (wait_keeps (fun s => source (world s) = source (world st) /\
                                max_duration_seconds (self s) = max_duration_seconds (self st)));
      [intros s t H; now proj|intros s i H; now proj|split; reflexivity].
  - cbv beta. intros [ok| |] s1 [H1 H2]; try exact I.
    destruct ok; cbn [negb]; [|repeat mstep; exact I].
    pose proof (HL (fetched (world s1))) as Hlat. rewrite <- H1 in Hlat.
    repeat mstep; try exact I.
    all: fold (polling fuel).
    all: apply wp_bind.
    all: eapply wp_mono;
      [ apply (polling_keeps (on_time (source (world st)) (max_duration_seconds (self st)) L
                                (clock (world s1))));
        [ intros s0 Hs0; apply tick_on_time; assumption
        | intros s0 r Hs0; exact Hs0
        | unfold on_time; proj; repeat split; try assumption; lia ]
      | cbv beta; intros [[]| |] s2 (_ & _ & E3 & E4); try exact I;
        repeat mstep; rewrite E3; cbn [Result.duration_seconds]; lia ].
Qed.

(** ** What the statuses mean *)

(** A loop whose exits satisfy [Q] and whose iterations keep [I]. *)
Lemma wp_while_exit (I : State -> Prop) (Q : outcome unit -> State -> Prop)
    (cond : M bool) (body : M control) :
  (forall s, I s -> Q OutOfFuel s) ->
  (forall s, I s ->
     wp cond (fun o s' => match o with
                          | Ret true => I s'
                          | Ret false => Q (Ret tt) s'
                          | Raise e => Q (Raise e) s'
                          | OutOfFuel => Q OutOfFuel s'
                          end) s) ->
  (forall s, I s ->
     wp body (fun o s' => match o with
                          | Ret Continue => I s'
                          | Ret Break => Q (Ret tt) s'
                          | Raise e => Q (Raise e) s'
                          | OutOfFuel => Q OutOfFuel s'
                          end) s) ->
  forall fuel s, I s -> wp (while_loop fuel cond body) Q s.
Proof.
  intros H0 Hc Hb. induction fuel as [|fuel IH]; intros s Hs.
  - exact (H0 s Hs).
  - apply wp_while_S, wp_bind.
    apply (wp_mono _ _ _ _ (Hc s Hs)). intros [b|e|] s1 H1; try exact H1.
    destruct b; [|exact H1].
    apply wp_bind. apply (wp_mono _ _ _ _ (Hb s1 H1)).
    intros [[|]|e|] s2 H2; try exact H2. now apply IH.
Qed.

Lemma compare_data_describes stamp old d c :
  In c (_compare_data stamp old d) -> describes d c.
Proof.
  destruct old as [old|]; [|intros []].
  unfold _compare_data. rewrite fold_compare_field, app_nil_l.
  intros H. apply change_of_sound in H. apply H.
Qed.

Lemma tick_change_seen soc s :
  stop_reason (locals s) = "timeout" ->
  stop_on_change (self s) = soc ->
  wp tick (fun o s' =>
    stop_on_change (self s') = soc /\
    match o with
    | Ret Continue => stop_reason (locals s') = "timeout"
    | _ => stop_reason (locals s') = "change_detected" -> change_seen s'
    end) s.
Proof.
  intros Hr Hs. repeat mstep.
  all: split; [congruence|].
  all: try assumption.
  all: try (rewrite Hr; discriminate).
  all: try discriminate.
  all: intros _; split; [proj; assumption|].
  all: eexists; eexists; proj.
  all: split; [reflexivity|]; split; [|split; [|eexists; reflexivity]].
  all: try discriminate.
  all: match goal with
       | H : _compare_data _ _ _ = _ |- _ =>
           rewrite <- H; apply Forall_forall; intros c Hc;
           exact (compare_data_describes _ _ _ _ Hc)
       end.
Qed.

Lemma polling_change_seen soc fuel s :
  stop_reason (locals s) = "timeout" ->
  stop_on_change (self s) = soc ->
  wp (polling fuel) (fun o s' =>
    stop_on_change (self s') = soc /\
    match o with
    | Ret _ => stop_reason (locals s') = "change_detected" -> change_seen s'
    | _ => True
    end) s.
Proof.
  intros Hr Hs. unfold polling. apply wp_try.
  eapply wp_mono.
  - apply (wp_while_exit
             (fun s => stop_reason (locals s) = "timeout" /\ stop_on_change (self s) = soc)
             (fun o s' => stop_on_change (self s') = soc /\
                          match o with
                          | Ret _ => stop_reason (locals s') = "change_detected" -> change_seen s'
                          | _ => True
                          end)).
    + intros s0 [_ H0]. split; [exact H0|exact I].
    + intros s0 [H0 H1]. unfold still_running. repeat mstep.
      destruct (_ && _); [split; assumption|].
      split; [assumption|]. rewrite H0. discriminate.
    + intros s0 [H0 H1].
      apply (wp_mono _ _ _ _ (tick_change_seen soc s0 H0 H1)).
      intros [[|]|e|] s1 [E1 E2]; auto.
    + split; assumption.
  - cbv beta. intros [a|[| |n]|] s' [H1 H2]; try (split; [exact H1|exact H2]).
    repeat mstep. split; [exact H1|discriminate].
Qed.

Lemma start_change_seen fuel st :
  wp (start fuel) (fun o s' =>
    match o with
    | Ret r =>
        Result.status r = "change_detected" ->
        stop_on_change (self st) = true /\
        exists d found,
          Result.data r = Some d /\
          found <> [] /\
          Forall (describes d) found /\
          exists before, Result.changes r = (before ++ found)%list
    | _ => True
    end) st.
Proof.
  unfold start. apply wp_bind.
  eapply wp_mono.
  - apply (wait_keeps (fun s => stop_on_change (self s) = stop_on_change (self st)));
      [intros s t H; now proj|intros s i H; now proj|reflexivity].
  - cbv beta. intros [ok| |] s1 H1; try exact I.
    destruct ok; cbn [negb]; [|repeat mstep; discriminate].
    repeat mstep; try exact I; try discriminate.
    all: fold (polling fuel).
    all: apply wp_bind.
    all: eapply wp_mono;
      [ apply (polling_change_seen (stop_on_change (self st)) fuel);
        [ reflexivity | proj; exact H1 ]
      | cbv beta; intros [[]| |] s2 [E1 E2]; try exact I;
        repeat mstep; cbn [Result.status Result.data Result.changes];
        intros Hcd; destruct (E2 Hcd) as (Hsoc & d & found & Hd & Hne & Hall & before & Hlog);
        split; [congruence|]; exists d, found; repeat split; try assumption;
        exists before; assumption ].
Qed.

Lemma tick_condition_met cond s :
  stop_reason (locals s) = "timeout" ->
  stop_condition (self s) = cond ->
  wp tick (fun o s' =>
    stop_condition (self s') = cond /\
    match o with
    | Ret Continue => stop_reason (locals s') = "timeout"
    | _ => stop_reason (locals s') = "condition_met" -> condition_answered cond s'
    end) s.
Proof.
  intros Hr Hs. repeat mstep.
  all: split; [congruence|].
  all: try assumption.
  all: try (rewrite Hr; discriminate).
  all: try discriminate.
  all: intros _;
    match goal with
    | H : ?f ?w = inr true |- _ => exists f, w
    end; split; [congruence|split; [assumption|reflexivity]].
Qed.

Lemma polling_condition_met cond fuel s :
  stop_reason (locals s) = "timeout" ->
  stop_condition (self s) = cond ->
  wp (polling fuel) (fun o s' =>
    match o with
    | Ret _ => stop_reason (locals s') = "condition_met" -> condition_answered cond s'
    | _ => True
    end) s.
Proof.
  intros Hr Hs. unfold polling. apply wp_try.
  eapply wp_mono.
  - apply (wp_while_exit
             (fun s => stop_reason (locals s) = "timeout" /\ stop_condition (self s) = cond)
             (fun o s' => match o with
                          | Ret _ => stop_reason (locals s') = "condition_met" ->
                                     condition_answered cond s'
                          | _ => True
                          end)).
    + intros s0 _. exact I.
    + intros s0 [H0 H1]. unfold still_running. repeat mstep.
      destruct (_ && _); [split; assumption|].
      rewrite H0. discriminate.
    + intros s0 [H0 H1].
      apply (wp_mono _ _ _ _ (tick_condition_met cond s0 H0 H1)).
      intros [[|]|e|] s1 [E1 E2]; auto.
    + split; assumption.
  - cbv beta. intros [a|[| |n]|] s' H; try exact H.
    repeat mstep. discriminate.
Qed.

Lemma start_condition_met fuel st :
  wp (start fuel) (fun o s' =>
    match o with
    | Ret r =>
        Result.status r = "condition_met" ->
        exists f w, stop_condition (self st) = Some f /\ f w = inr true /\
                    world s' = count_cond_call w
    | _ => True
    end) st.
Proof.
  unfold start. apply wp_bind.
  eapply wp_mono.
  - apply (wait_keeps (fun s => stop_condition (self s) = stop_condition (self st)));
      [intros s t H; now proj|intros s i H; now proj|reflexivity].
  - cbv beta. intros [ok| |] s1 H1; try exact I.
    destruct ok; cbn [negb]; [|repeat mstep; discriminate].
    repeat mstep; try exact I; try discriminate.
    all: fold (polling fuel).
    all: apply wp_bind.
    all: eapply wp_mono;
      [ apply (polling_condition_met (stop_condition (self st)) fuel);
        [ reflexivity | proj; exact H1 ]
      | cbv beta; intros [[]| |] s2 E2; try exact I;
        repeat mstep; cbn [Result.status]; exact E2 ].
Qed.

Lemma tick_unstopped lim t0 s :
  unstopped lim t0 s ->
  wp tick (fun o s' =>
    match o with
    | Ret Continue => unstopped lim t0 s'
    | Ret Break => deadline_reached lim t0 s'
    | _ => max_duration_seconds (self s') = lim /\ start_time (locals s') = t0
    end) s.
Proof.
  unfold unstopped, deadline_reached. intros (H1 & H2 & H3 & H4 & H5).
  repeat mstep.
  all: rewrite ?H3 in *; cbn [stop_between existsb] in *.
  all: rewrite ?H2 in *; cbn [andb negb] in *.
  all: try discriminate.
  all: try (split; assumption).
  all: comparisons.
  all: try (repeat split; first [assumption | discriminate | rewrite H1; discriminate | intros; lia]).
Qed.

Lemma polling_unstopped lim t0 fuel s :
  unstopped lim t0 s ->
  wp (polling fuel) (fun o s' =>
    match o with
    | Ret _ => deadline_reached lim t0 s'
    | _ => True
    end) s.
Proof.
  intros Hs. unfold polling. apply wp_try.
  eapply wp_mono.
  - apply (wp_while_exit (unstopped lim t0)
             (fun o s' => match o with
                          | Ret _ => deadline_reached lim t0 s'
                          | _ => max_duration_seconds (self s') = lim /\
                                 start_time (locals s') = t0
                          end)).
    + intros s0 (_ & _ & _ & H4 & H5). split; assumption.
    + intros s0 H0. pose proof H0 as (H1 & H2 & H3 & H4 & H5).
      unfold still_running. repeat mstep.
      rewrite H2. cbn [andb].
      destruct (_ <? _) eqn:E; [exact H0|].
      comparisons. unfold deadline_reached.
      repeat split; try assumption; [rewrite H1; discriminate|intros; lia].
    + intros s0 H0.
      apply (wp_mono _ _ _ _ (tick_unstopped lim t0 s0 H0)).
      intros [[|]|e|] s1 E; exact E.
    + exact Hs.
  - cbv beta. intros [a|[| |n]|] s' H; try exact I; try exact H.
    destruct H as [H4 H5]. repeat mstep. unfold deadline_reached. proj.
    repeat split; try assumption; discriminate.
Qed.

Lemma start_unstopped fuel st :
  stop_calls (world st) = [] ->
  wp (start fuel) (fun o s' =>
    match o with
    | Ret r =>
        Result.status r <> "stopped" /\
        (Result.status r = "timeout" ->
         exists d, Result.duration_seconds r = Some d /\
                   max_duration_seconds (self st) * second <= d)
    | _ => True
    end) st.
Proof.
  intros Hno. unfold start. apply wp_bind.
  eapply wp_mono.
  - apply (wait_keeps (fun s => stop_calls (world s) = [] /\
                                max_duration_seconds (self s) = max_duration_seconds (self st)));
      [intros s t H; now proj|intros s i H; now proj|split; [exact Hno|reflexivity]].
  - cbv beta. intros [ok| |] s1 [H1 H2]; try exact I.
    destruct ok; cbn [negb]; [|repeat mstep; split; discriminate].
    repeat mstep; try exact I; try (split; discriminate).
    all: fold (polling fuel).
    all: apply wp_bind.
    all: eapply wp_mono;
      [ apply (polling_unstopped (max_duration_seconds (self st)) (clock (world s1)) fuel);
        unfold unstopped; proj; rewrite H1; cbn [stop_between existsb andb negb];
        repeat split; assumption
      | cbv beta; intros [[]| |] s2 E; try exact I;
        destruct E as (E1 & E2 & E3 & E4);
        repeat mstep; cbn [Result.status Result.duration_seconds];
        split; [exact E1|]; intros Ht; eexists; split; [reflexivity|];
        rewrite E3; exact (E4 Ht) ].
Qed.

(** ** Runs without interrupt signal *)

Lemma sigint_between_none a b w : sigint w = None -> sigint_between a b w = None.
Proof. unfold sigint_between. now intros ->. Qed.

Ltac unsignalled :=
  repeat match goal with
    | H : sigint ?w = None, H' : sigint_between _ _ ?w = Some _ |- _ =>
        rewrite (sigint_between_none _ _ _ H) in H'; discriminate H'
    end.

Lemma replace_error now h m e : replace now h m = inl e -> e = ValueError.
Proof.
  unfold replace. destruct (_ && _); congruence.
Qed.

Lemma countdown_unsignalled target fuel s :
  sigint (world s) = None ->
  wp (countdown fuel target) (fun o s' =>
    sigint (world s') = None /\ o <> Raise KeyboardInterrupt) s.
Proof.
  intros Hs. unfold countdown.
  apply (wp_while_exit (fun s => sigint (world s) = None)
           (fun o s' => sigint (world s') = None /\ o <> Raise KeyboardInterrupt));
    [| | |exact Hs].
  - intros s0 H0. split; [exact H0|discriminate].
  - intros s0 H0. repeat mstep.
    destruct (_ <? _); [exact H0|split; [exact H0|discriminate]].
  - intros s0 H0. repeat mstep; unsignalled; try discriminate. exact H0.
Qed.

Lemma wait_unsignalled fuel s :
  sigint (world s) = None ->
  wp (_wait_until_start fuel) (fun o s' =>
    sigint (world s') = None /\ o <> Ret false /\ o <> Raise KeyboardInterrupt) s.
Proof.
  intros Hs. unfold _wait_until_start. repeat mstep.
  all: try (split; [assumption|split; intros [=]; congruence]).
  all: try (pose proof (parse_error_is_ValueError _ _ ltac:(eassumption));
            split; [assumption|split; intros [=]; congruence]).
  all: try (pose proof (replace_error _ _ _ _ ltac:(eassumption));
            split; [assumption|split; intros [=]; congruence]).
  apply wp_try, wp_bind.
  eapply wp_mono; [apply countdown_unsignalled, Hs|].
  cbv beta. intros [[]|[| |n]|] s' [H1 H2]; try (split; [exact H1|split; discriminate]).
  exfalso. now apply H2.
Qed.

Lemma tick_unsignalled cond s :
  no_interrupt cond ->
  unsignalled_loop cond s ->
  wp tick (fun o s' => unsignalled_loop cond s' /\ o <> Raise KeyboardInterrupt) s.
Proof.
  unfold unsignalled_loop. intros Hc (H1 & H2 & H3). repeat mstep.
  all: unsignalled.
  all: try (split; [split; [assumption|split; [congruence|]]|discriminate]).
  all: try assumption.
  all: try (simpl; now auto).
  all: split; [split; [assumption|split; [congruence|assumption]]|].
  all: intros [= ->].
  all: match goal with
       | H : ?f _ = inl KeyboardInterrupt |- _ =>
           eapply (Hc f); [congruence|exact H]
       end.
Qed.

Lemma polling_unsignalled cond fuel s :
  no_interrupt cond ->
  unsignalled_loop cond s ->
  wp (polling fuel) (fun o s' =>
    unsignalled_loop cond s' /\ o <> Raise KeyboardInterrupt) s.
Proof.
  intros Hc Hs. unfold polling. apply wp_try.
  eapply wp_mono.
  - apply (wp_while_exit (unsignalled_loop cond)
             (fun o s' => unsignalled_loop cond s' /\ o <> Raise KeyboardInterrupt));
      [| | |exact Hs].
    + intros s0 H0. split; [exact H0|discriminate].
    + intros s0 H0. unfold still_running. repeat mstep.
      destruct (_ && _); [exact H0|split; [exact H0|discriminate]].
    + intros s0 H0.
      apply (wp_mono _ _ _ _ (tick_unsignalled cond s0 Hc H0)).
      intros [[|]|e|] s1 [E1 E2]; cbv beta iota;
        first [ exact E1
              | split; [exact E1|first [discriminate|intros [= ->]; now apply E2]]].
  - cbv beta. intros [a|[| |n]|] s' [H1 H2]; try (split; [exact H1|exact H2]).
    exfalso. now apply H2.
Qed.

Lemma wp_conj {A} (c : M A) (Q1 Q2 : outcome A -> State -> Prop) s :
  wp c Q1 s -> wp c Q2 s -> wp c (fun o s' => Q1 o s' /\ Q2 o s') s.
Proof. unfold wp. destruct (c s). auto. Qed.

Lemma start_unsignalled fuel st :
  sigint (world st) = None ->
  no_interrupt (stop_condition (self st)) ->
  wp (start fuel) (fun o s' =>
    o <> Raise KeyboardInterrupt /\
    match o with
    | Ret r => Result.status r <> "cancelled" /\ Result.status r <> "user_interrupt"
    | _ => True
    end) st.
Proof.
  intros Hs Hc. unfold start. apply wp_bind.
  eapply wp_mono.
  - apply wp_conj.
    + apply wait_unsignalled, Hs.
    + apply (wait_keeps (fun s => stop_condition (self s) = stop_condition (self st)));
        [intros s t H; now proj|intros s i H; now proj|reflexivity].
  - cbv beta. intros [ok|e|] s1 [(H1 & H2 & H3) H4].
    2: { split; [|exact I]. intros [= ->]. now apply H3. }
    2: { split; [discriminate|exact I]. }
    destruct ok; cbn [negb]; [|exfalso; now apply H2].
    repeat mstep; unsignalled; try (split; [discriminate|try exact I; split; discriminate]).
    all: fold (polling fuel).
    all: apply wp_bind.
    all: eapply wp_mono;
      [ apply (polling_unsignalled (stop_condition (self st)) fuel _ Hc);
        unfold unsignalled_loop; proj; repeat split; try assumption; simpl; auto
      | cbv beta; intros [[]|e|] s2 [(E1 & E2 & E3) E4];
        [ repeat mstep; cbn [Result.status]; split; [discriminate|];
          revert E3; generalize (stop_reason (locals s2)); intros r Hr;
          simpl in Hr; split; intros ->;
          repeat destruct Hr as [Hr|Hr]; try discriminate Hr; exact Hr
        | split; [|exact I]; intros [= ->]; now apply E4
        | split; [discriminate|exact I] ] ].
Qed.

(** ** The shape of a result *)

Lemma tick_readable s :
  readable (last_data (self s)) ->
  wp tick (fun _ s' => readable (last_data (self s'))) s.
Proof.
  intros H. repeat mstep.
  all: try assumption.
  all: eexists; split; [reflexivity|assumption].
Qed.

Lemma start_shape fuel st :
  wp (start fuel) (fun o s' =>
    match o with
    | Ret r =>
        (Result.status r = "cancelled" /\ Result.data r = None /\ early_result r) \/
        (Result.status r = "error" /\ unreadable (Result.data r) /\ early_result r) \/
        full_result r
    | _ => True
    end) st.
Proof.
  unfold start. apply wp_bind.
  apply (wp_mono _ _ _ _ (wp_any _ st)). intros [ok| |] s1 _; try exact I.
  destruct ok; cbn [negb]; [|repeat mstep; left; repeat split].
  repeat mstep; try exact I.
  all: try (right; left; split; [reflexivity|split; [|repeat split]];
            eexists; split; [reflexivity|assumption]).
  all: fold (polling fuel).
  all: apply wp_bind.
  all: eapply wp_mono;
    [ apply wp_conj;
      [ apply (polling_reason fuel); now left
      | apply (polling_keeps (fun s => readable (last_data (self s))));
        [ exact tick_readable
        | intros s0 r H0; exact H0
        | proj; eexists; split; [reflexivity|assumption] ] ]
    | cbv beta; intros [[]| |] s2 [E1 E2]; try exact I;
      repeat mstep; right; right; repeat split; try assumption; discriminate ].
Qed.

(** ** The flag is_running after a run *)

Lemma start_running fuel st :
  wp (start fuel) (fun o s' =>
    match o with
    | Ret r =>
        match Result.total_checks r with
        | Some _ => is_running (self s') = false
        | None =>
            stop_calls (world st) = [] -> Result.status r = "error" ->
            is_running (self s') = true
        end
    | _ => True
    end) st.
Proof.
  unfold start. apply wp_bind.
  eapply wp_mono.
  - apply (wait_keeps (fun s => stop_calls (world s) = stop_calls (world st)));
      [intros s t H; now proj|intros s i H; now proj|reflexivity].
  - cbv beta. intros [ok| |] s1 H1; try exact I.
    destruct ok; cbn [negb]; [|repeat mstep; discriminate].
    repeat mstep; try exact I.
    all: try (cbn [Result.total_checks]; intros Hno _; rewrite H1, Hno; reflexivity).
    all: fold (polling fuel).
    all: apply wp_bind.
    all: apply (wp_mono _ _ _ _ (wp_any _ _)).
    all: intros [[]| |] s2 _; try exact I.
    all: repeat mstep; reflexivity.
Qed.

(** ** What a run leaves as it is *)

Ltac keep_frame :=
  match goal with
  | H : framed _ _ |- _ =>
      let Hc := fresh in let Hw := fresh in
      destruct H as [Hc Hw]; unfold framed; proj;
      split; [rewrite <- Hc|rewrite <- Hw]; reflexivity
  end.

Lemma tick_framed st s :
  framed st s -> wp tick (fun _ s' => framed st s') s.
Proof.
  intros H. repeat mstep.
  all: keep_frame.
Qed.

Lemma start_framed fuel st :
  wp (start fuel) (fun _ s' => framed st s') st.
Proof.
  unfold start. apply wp_bind.
  eapply wp_mono.
  - apply (wait_keeps (framed st));
      [intros s t H; keep_frame|intros s i H; keep_frame|split; reflexivity].
  - cbv beta. intros [ok| |] s1 H1; try exact H1.
    destruct ok; cbn [negb]; [|repeat mstep; exact H1].
    repeat mstep; try keep_frame.
    all: fold (polling fuel).
    all: apply wp_bind.
    all: eapply wp_mono;
      [ apply (polling_keeps (framed st));
        [ intros s0 H0; apply tick_framed, H0
        | intros s0 r H0; exact H0
        | keep_frame ]
      | cbv beta; intros [[]| |] s2 H2; try exact H2;
        repeat mstep; keep_frame ].
Qed.

(** X1.  However a call of [start] ends, it has only appended to the log
    of changes of the monitor: the entries that were there before the call
    are still there, in front.  A result that carries total_checks lists
    the whole log, older entries included; a result without that key
    (cancelled, error) lists no change. *)
Theorem start_only_appends_to_the_log :
  forall (fuel : nat) (st st' : State) (o : outcome Result.t),
    start fuel st = (o, st') ->
    exists added,
      changes_log (self st') = (changes_log (self st) ++ added)%list /\
      forall r, o = Ret r ->
        Result.changes r =
          match Result.total_checks r with
          | Some _ => (changes_log (self st) ++ added)%list
          | None => []
          end.
Proof.
  intros fuel st st' o E.
  pose proof (wp_intro _ _ _ _ _ (start_log fuel st) E) as [[added Ha] Hr].
  exists added. split; [exact Ha|].
  intros r ->. rewrite <- Ha. exact Hr.
Qed.

Lemma start_only_appends_witness :
  exists r st',
    start 3 second_run = (Ret r, st') /\
    List.length (changes_log (self second_run)) = 1%nat /\
    List.length (Result.changes r) = 2%nat /\
    exists added,
      Result.changes r = (changes_log (self second_run) ++ added)%list.
Proof.
  assert (E : exists r st', start 3 second_run = (Ret r, st') /\
                            List.length (Result.changes r) = 2%nat)
    by (eexists; eexists; split; [vm_compute; reflexivity|reflexivity]).
  destruct E as (r & st' & E & Hn). exists r, st'.
  split; [exact E|]. split; [reflexivity|]. split; [exact Hn|].
  destruct (start_only_appends_to_the_log 3 second_run st' (Ret r) E)
    as (added & _ & Hr).
  exists added. pose proof (Hr r eq_refl) as Hc.
  destruct (Result.total_checks r); [exact Hc|].
  rewrite Hc in Hn. discriminate Hn.
Defined.

(** X2.  The total_checks of a result is the number of requests that the
    run has sent to the remote site, and it is at least one.  A result
    without that key comes after no request when the status is cancelled and
    after exactly one request otherwise. *)
Theorem total_checks_counts_the_requests :
  forall (fuel : nat) (st st' : State) (r : Result.t),
    start fuel st = (Ret r, st') ->
    match Result.total_checks r with
    | Some n =>
        (1 <= n)%nat /\ fetched (world st') = (fetched (world st) + n)%nat
    | None =>
        fetched (world st') =
        (fetched (world st) +
         if String.eqb (Result.status r) "cancelled" then 0 else 1)%nat
    end.
Proof.
  intros fuel st st' r E.
  exact (wp_intro _ _ _ _ _ (start_counted fuel st) E).
Qed.

Lemma total_checks_witness :
  exists r st',
    start 3 landing_run = (Ret r, st') /\
    Result.total_checks r = Some 3%nat /\
    fetched (world st') = 3%nat.
Proof.
  assert (E : exists r st', start 3 landing_run = (Ret r, st') /\
                            Result.total_checks r = Some 3%nat)
    by (eexists; eexists; split; [vm_compute; reflexivity|reflexivity]).
  destruct E as (r & st' & E & Hn). exists r, st'.
  split; [exact E|]. split; [exact Hn|].
  pose proof (total_checks_counts_the_requests 3 landing_run st' r E) as H.
  rewrite Hn in H. exact (proj2 H).
Defined.



(** X4.  A result with the status change_detected comes from a monitor
    that stops on change; its data is a snapshot, and its list of changes
    ends with a group of changes, at least one, whose new values are the
    values that this snapshot holds for their fields. *)
Theorem change_detected_describes_the_data :
  forall (fuel : nat) (st st' : State) (r : Result.t),
    start fuel st = (Ret r, st') ->
    Result.status r = "change_detected" ->
    stop_on_change (self st) = true /\
    exists d found,
      Result.data r = Some d /\
      found <> [] /\
      Forall (describes d) found /\
      exists before, Result.changes r = (before ++ found)%list.
Proof.
  intros fuel st st' r E.
  exact (wp_intro _ _ _ _ _ (start_change_seen fuel st) E).
Qed.

Lemma change_detected_witness :
  exists r st',
    start 3 landing_run = (Ret r, st') /\
    Result.status r = "change_detected" /\
    exists d found,
      Result.data r = Some d /\
      found <> [] /\
      Forall (describes d) found /\
      exists before, Result.changes r = (before ++ found)%list.
Proof.
  assert (E : exists r st', start 3 landing_run = (Ret r, st') /\
                            Result.status r = "change_detected")
    by (eexists; eexists; split; [vm_compute; reflexivity|reflexivity]).
  destruct E as (r & st' & E & Hs). exists r, st'.
  split; [exact E|]. split; [exact Hs|].
  exact (proj2 (change_detected_describes_the_data 3 landing_run st' r E Hs)).
Defined.

(** X5.  A result with the status condition_met comes from a monitor that
    has a stop condition, and the condition has answered [True] at its last
    call; nothing happened in the world after that call: no sleep and no
    request. *)
Theorem condition_met_follows_a_true_answer :
  forall (fuel : nat) (st st' : State) (r : Result.t),
    start fuel st = (Ret r, st') ->
    Result.status r = "condition_met" ->
    exists f w,
      stop_condition (self st) = Some f /\
      f w = inr true /\
      world st' = count_cond_call w.
Proof.
  intros fuel st st' r E.
  exact (wp_intro _ _ _ _ _ (start_condition_met fuel st) E).
Qed.

Lemma condition_met_witness :
  exists r st',
    start 5 conditional_run = (Ret r, st') /\
    Result.status r = "condition_met" /\
    exists f w,
      stop_condition (self conditional_run) = Some f /\
      f w = inr true /\
      world st' = count_cond_call w.
Proof.
  assert (E : exists r st', start 5 conditional_run = (Ret r, st') /\
                            Result.status r = "condition_met")
    by (eexists; eexists; split; [vm_compute; reflexivity|reflexivity]).
  destruct E as (r & st' & E & Hs). exists r, st'.
  split; [exact E|]. split; [exact Hs|].
  exact (condition_met_follows_a_true_answer 5 conditional_run st' r E Hs).
Defined.

(** X6.  When [stop()] is never called, no result has the status stopped,
    and a result with the status timeout reports a duration that is not
    less than the maximal duration. *)
Theorem without_stop_calls_timeout_is_the_deadline :
  forall (fuel : nat) (st st' : State) (r : Result.t),
    stop_calls (world st) = [] ->
    start fuel st = (Ret r, st') ->
    Result.status r <> "stopped" /\
    (Result.status r = "timeout" ->
     exists d, Result.duration_seconds r = Some d /\
               max_duration_seconds (self st) * second <= d).
Proof.
  intros fuel st st' r Hno E.
  exact (wp_intro _ _ _ _ _ (start_unstopped fuel st Hno) E).
Qed.

Lemma without_stop_calls_witness :
  exists r st',
    start 5 short_run = (Ret r, st') /\
    Result.status r = "timeout" /\
    exists d, Result.duration_seconds r = Some d /\ 60 * second <= d.
Proof.
  assert (E : exists r st', start 5 short_run = (Ret r, st') /\
                            Result.status r = "timeout")
    by (eexists; eexists; split; [vm_compute; reflexivity|reflexivity]).
  destruct E as (r & st' & E & Hs). exists r, st'.
  split; [exact E|]. split; [exact Hs|].
  exact (proj2 (without_stop_calls_timeout_is_the_deadline 5 short_run st' r
                  eq_refl E) Hs).
Defined.

(** X7.  When no interrupt signal is sent and the stop condition does not
    raise [KeyboardInterrupt] itself, [start] does not end with
    [KeyboardInterrupt], and the status it returns is neither cancelled nor
    user_interrupt. *)
Theorem without_signal_no_interrupt_is_reported :
  forall (fuel : nat) (st : State),
    sigint (world st) = None ->
    no_interrupt (stop_condition (self st)) ->
    fst (start fuel st) <> Raise KeyboardInterrupt /\
    forall r, fst (start fuel st) = Ret r ->
      Result.status r <> "cancelled" /\ Result.status r <> "user_interrupt".
Proof.
  intros fuel st Hs Hc.
  pose proof (start_unsignalled fuel st Hs Hc) as H. unfold wp in H.
  destruct (start fuel st) as [o s']. cbn [fst]. destruct H as [H1 H2].
  split; [exact H1|]. intros r ->. exact H2.
Qed.

Lemma without_signal_witness :
  fst (start 5 short_run) <> Raise KeyboardInterrupt /\
  forall r, fst (start 5 short_run) = Ret r ->
    Result.status r <> "cancelled" /\ Result.status r <> "user_interrupt".
Proof.
  apply (without_signal_no_interrupt_is_reported 5 short_run).
  - reflexivity.
  - intros f w Hf. discriminate Hf.
Defined.

(** X8.  The keys of a result follow its status.  The data is [None]
    exactly when the status is cancelled; it is a snapshot with an error
    message exactly when the status is error.  The keys total_checks and
    duration_seconds are absent together, exactly when the status is
    cancelled or error, and then the list of changes is empty. *)
Lemma readable_not_unreadable v : readable v -> unreadable v -> False.
Proof.
  intros (d & -> & Hd) (d' & [= <-] & Hd'). congruence.
Qed.

Theorem result_keys_follow_the_status :
  forall (fuel : nat) (st st' : State) (r : Result.t),
    start fuel st = (Ret r, st') ->
    (Result.data r = None <-> Result.status r = "cancelled") /\
    (unreadable (Result.data r) <-> Result.status r = "error") /\
    (Result.total_checks r = None <->
     Result.status r = "cancelled" \/ Result.status r = "error") /\
    (Result.duration_seconds r = None <-> Result.total_checks r = None) /\
    (Result.total_checks r = None -> Result.changes r = []).
Proof.
  intros fuel st st' r E.
  pose proof (wp_intro _ _ _ _ _ (start_shape fuel st) E) as H.
  cbv beta iota in H.
  destruct H as [(Hs & Hd & Hc & Hdur & Hn)|[(Hs & Hd & Hc & Hdur & Hn)|(Hs & Hd & Hdur & Hn)]].
  - rewrite Hs, Hd, Hdur, Hn.
    repeat split; auto; try discriminate.
    intros (d & [=] & _).
  - rewrite Hs, Hdur, Hn.
    repeat split; auto; try discriminate.
    destruct Hd as (d & -> & _). discriminate.
  - assert (Hne : Result.status r <> "cancelled" /\ Result.status r <> "error").
    { revert Hs. generalize (Result.status r). intros x Hx. simpl in Hx.
      split; intros ->; repeat destruct Hx as [Hx|Hx]; try discriminate Hx;
        exact Hx. }
    destruct Hne as [Hne1 Hne2].
    repeat split; try (intros; exfalso; tauto).
    + intros Hnone. destruct Hd as (d & Hd & _). congruence.
    + intros Hu. exfalso. exact (readable_not_unreadable _ Hd Hu).
Qed.

Lemma result_keys_witness :
  exists r st',
    start 3 dead_run = (Ret r, st') /\
    Result.status r = "error" /\
    unreadable (Result.data r) /\
    Result.total_checks r = None /\
    Result.duration_seconds r = None.
Proof.
  assert (E : exists r st', start 3 dead_run = (Ret r, st') /\
                            Result.status r = "error")
    by (eexists; eexists; split; [vm_compute; reflexivity|reflexivity]).
  destruct E as (r & st' & E & Hs). exists r, st'.
  destruct (result_keys_follow_the_status 3 dead_run st' r E)
    as (_ & Hu & Hn & Hd & _).
  split; [exact E|]. split; [exact Hs|]. split; [apply Hu, Hs|].
  assert (Hnone : Result.total_checks r = None) by (apply Hn; now right).
  split; [exact Hnone|apply Hd, Hnone].
Defined.

(** X9.  A run that returns after its loop leaves the flag is_running
    unset.  A run that returns the status error leaves it set, unless
    [stop()] was called meanwhile: the early [return] does not reset it. *)
Theorem error_result_leaves_the_monitor_running :
  forall (fuel : nat) (st st' : State) (r : Result.t),
    start fuel st = (Ret r, st') ->
    (Result.total_checks r <> None -> is_running (self st') = false) /\
    (Result.status r = "error" -> stop_calls (world st) = [] ->
     is_running (self st') = true).
Proof.
  intros fuel st st' r E.
  pose proof (wp_intro _ _ _ _ _ (start_running fuel st) E) as H.
  pose proof (wp_intro _ _ _ _ _ (start_shape fuel st) E) as Hshape.
  cbv beta iota in H, Hshape. split.
  - intros Hn. destruct (Result.total_checks r); [exact H|contradiction].
  - intros Hs Hno.
    destruct Hshape as [(Hc & _)|[(_ & _ & _ & _ & Hn)|(Hf & _)]].
    + rewrite Hs in Hc. discriminate Hc.
    + rewrite Hn in H. exact (H Hno Hs).
    + exfalso. rewrite Hs in Hf. simpl in Hf.
      repeat destruct Hf as [Hf|Hf]; try discriminate Hf. exact Hf.
Qed.

Lemma error_result_witness :
  exists r st',
    start 3 dead_run = (Ret r, st') /\
    Result.status r = "error" /\
    is_running (self st') = true.
Proof.
  assert (E : exists r st', start 3 dead_run = (Ret r, st') /\
                            Result.status r = "error")
    by (eexists; eexists; split; [vm_compute; reflexivity|reflexivity]).
  destruct E as (r & st' & E & Hs). exists r, st'.
  split; [exact E|]. split; [exact Hs|].
  exact (proj2 (error_result_leaves_the_monitor_running 3 dead_run st' r E)
           Hs eq_refl).
Defined.

(** X10.  However a call of [start] ends, the attributes that [__init__]
    has set from its arguments are what they were: a run writes last_data,
    changes_log and is_running only.  The answers of the remote site and
    the calls of [stop()] still to come are not touched either. *)
Theorem start_leaves_the_configuration :
  forall (fuel : nat) (st : State),
    let st' := snd (start fuel st) in
    configuration (self st') = configuration (self st) /\
    source (world st') = source (world st) /\
    stop_calls (world st') = stop_calls (world st).
Proof.
  intros fuel st st'.
  pose proof (start_framed fuel st) as H. unfold wp in H.
  subst st'. destruct (start fuel st) as [o s']. cbn [snd].
  destruct H as [Hc Hw]. split; [exact Hc|].
  unfold surroundings in Hw. now injection Hw.
Qed.
